(** * Team Planner: access control and invitation lifecycle

    A shallow embedding of the two implementations of the business rules of
    the Team Planner application:

    - [Client]: the browser-side service [DataService]
      (src/services/dataService.ts), which keeps projects, tasks and
      invitations as JSON arrays in localStorage;
    - [Server]: the Express route handlers (backend/routes) over the
      PostgreSQL schema of the migration script.

    Times are milliseconds since the epoch ([Z]); identifiers and e-mail
    addresses are strings; [new Date()], [NOW()] and freshly generated UUIDs
    are explicit arguments of the operations that read them. *)

From stdpp Require Import gmap strings list sorting.
From Stdlib Require Import ZArith Ascii.

(** ** JavaScript values and objects *)

Module Js.

(** The values that travel through task objects and request bodies.  A [Date]
    is identified with its time stamp, a nested object or array with its JSON
    text. *)
Inductive JsVal :=
| JUndef
| JNull
| JBool (b : bool)
| JNum (n : Z)
| JStr (s : string)
| JDate (t : Z)
| JObj (json : string).

#[global] Instance JsVal_eq_dec : EqDecision JsVal.
Proof. solve_decision. Defined.

(** [o.k]: reading a property that is absent gives [undefined]. *)
Definition prop (o : gmap string JsVal) (k : string) : JsVal :=
  default JUndef (o !! k).

(** Truthiness, as used by [x ? a : b], [!x] and [&&]. *)
Definition truthy (v : JsVal) : bool :=
  match v with
  | JUndef | JNull => false
  | JBool b => b
  | JNum n => negb (n =? 0)%Z
  | JStr s => negb (bool_decide (s = ""))
  | JDate _ | JObj _ => true
  end.

(** [{...a, ...b}]: the own properties of [b] override those of [a]. *)
Definition spread (a b : gmap string JsVal) : gmap string JsVal := b ∪ a.

(** [JSON.parse(JSON.stringify(o))] on an object: properties whose value is
    [undefined] are dropped. *)
Definition jsonClean (o : gmap string JsVal) : gmap string JsVal :=
  filter (λ kv, kv.2 ≠ JUndef) o.

(** [letter.toUpperCase()] of a letter that matched [[a-z]]. *)
Definition upper_ascii (c : ascii) : ascii :=
  let n := nat_of_ascii c in
  if (97 <=? n) && (n <=? 122) then ascii_of_nat (n - 32) else c.

Definition is_lower (c : ascii) : bool :=
  let n := nat_of_ascii c in (97 <=? n) && (n <=? 122).

(** [field.replace(/_([a-z])/g, (_, letter) => letter.toUpperCase())] *)
Fixpoint camelCase (s : string) : string :=
  match s with
  | EmptyString => EmptyString
  | String c rest =>
      match rest with
      | String d rest' =>
          if bool_decide (c = "_"%char) && is_lower d
          then String (upper_ascii d) (camelCase rest')
          else String c (camelCase rest)
      | EmptyString => String c EmptyString
      end
  end.

End Js.

(** ** The client: DataService over localStorage *)

Module Client.
Import Js.

Inductive InvStatus := pending | accepted | rejected.

#[global] Instance InvStatus_eq_dec : EqDecision InvStatus.
Proof. solve_decision. Defined.

Record Settings := {
  allowMemberTaskEdit : bool;
  allowMemberTaskCreate : bool;
  allowMemberInvite : bool }.

Record Project := {
  projectId : string;
  title : string;
  description : string;
  ownerId : string;
  members : list string;
  settings : option Settings;
  createdAt : Z;
  updatedAt : Z }.

Record ProjectInvitation := {
  invitationId : string;
  inv_projectId : string;
  inviterUserId : string;
  inviteeEmail : string;
  status : InvStatus;
  inv_createdAt : Z;
  expiresAt : Z }.

(** The three localStorage keys the modelled methods read and write
    (STORAGE_KEYS.PROJECTS, TASKS, INVITATIONS).  A task is a plain object. *)
Record Storage := {
  PROJECTS : list Project;
  TASKS : list (gmap string JsVal);
  INVITATIONS : list ProjectInvitation }.

(** A method either returns or throws [new Error(msg)]. *)
Inductive Outcome (A : Type) :=
| Returned (a : A)
| Thrown (msg : string).
Arguments Returned {A} a.
Arguments Thrown {A} msg.

Definition set_status (s : InvStatus) (inv : ProjectInvitation) : ProjectInvitation :=
  {| invitationId := invitationId inv; inv_projectId := inv_projectId inv;
     inviterUserId := inviterUserId inv; inviteeEmail := inviteeEmail inv;
     status := s; inv_createdAt := inv_createdAt inv; expiresAt := expiresAt inv |}.

Definition set_members (ms : list string) (now : Z) (p : Project) : Project :=
  {| projectId := projectId p; title := title p; description := description p;
     ownerId := ownerId p; members := ms; settings := settings p;
     createdAt := createdAt p; updatedAt := now |}.

Definition with_invitations (st : Storage) (invs : list ProjectInvitation) : Storage :=
  {| PROJECTS := PROJECTS st; TASKS := TASKS st; INVITATIONS := invs |}.

Definition with_projects (st : Storage) (ps : list Project) : Storage :=
  {| PROJECTS := ps; TASKS := TASKS st; INVITATIONS := INVITATIONS st |}.

(** [saveToStorage(STORAGE_KEYS.TASKS, tasks)]: every task goes through JSON. *)
Definition with_tasks (st : Storage) (ts : list (gmap string JsVal)) : Storage :=
  {| PROJECTS := PROJECTS st; TASKS := jsonClean <$> ts; INVITATIONS := INVITATIONS st |}.

(** getProject(projectId, userId) *)
Definition getProject (st : Storage) (pid userId : string) : option Project :=
  match list_find (λ p, projectId p = pid) (PROJECTS st) with
  | None => None
  | Some (_, project) =>
      if bool_decide (ownerId project ≠ userId)
         && negb (bool_decide (userId ∈ members project))
      then None
      else Some project
  end.

(** [getProject(task.projectId, userId)] where the first argument is read
    from a task object: [p.projectId === v] holds for no project unless [v]
    is a string. *)
Definition getProjectOf (st : Storage) (v : JsVal) (userId : string) : option Project :=
  match v with
  | JStr pid => getProject st pid userId
  | _ => None
  end.

Definition SEVEN_DAYS : Z := 7 * 24 * 60 * 60 * 1000.

(** createInvitation(projectId, inviterUserId, inviteeEmail) *)
Definition createInvitation (now : Z) (newId : string) (st : Storage)
    (pid inviterId email : string) : Outcome ProjectInvitation * Storage :=
  match getProject st pid inviterId with
  | None => (Thrown "Project not found or access denied", st)
  | Some project =>
      if bool_decide (ownerId project ≠ inviterId)
      then (Thrown "Only the project owner can invite members", st)
      else
        match list_find (λ inv, inv_projectId inv = pid
                                ∧ inviteeEmail inv = email
                                ∧ status inv = pending) (INVITATIONS st) with
        | Some _ => (Thrown "Invitation already sent to this email", st)
        | None =>
            let invitation :=
              {| invitationId := newId; inv_projectId := pid;
                 inviterUserId := inviterId; inviteeEmail := email;
                 status := pending; inv_createdAt := now;
                 expiresAt := (now + SEVEN_DAYS)%Z |} in
            (Returned invitation,
             with_invitations st (INVITATIONS st ++ [invitation]))
        end
  end.

(** getInvitationsForEmail(email) *)
Definition getInvitationsForEmail (now : Z) (st : Storage) (email : string)
    : list ProjectInvitation :=
  filter (λ inv, inviteeEmail inv = email ∧ status inv = pending
                 ∧ (now < expiresAt inv)%Z) (INVITATIONS st).

(** acceptInvitation(invitationId, userId) *)
Definition acceptInvitation (now : Z) (st : Storage) (iid userId : string)
    : bool * Storage :=
  match list_find (λ inv, invitationId inv = iid) (INVITATIONS st) with
  | None => (false, st)
  | Some (invitationIndex, invitation) =>
      if bool_decide (status invitation ≠ pending)
         || bool_decide (expiresAt invitation ≤ now)%Z
      then (false, st)
      else
        let st1 := with_invitations st
                     (alter (set_status accepted) invitationIndex (INVITATIONS st)) in
        match list_find (λ p, projectId p = inv_projectId invitation) (PROJECTS st1) with
        | Some (projectIndex, project) =>
            if bool_decide (userId ∈ members project)
            then (true, st1)
            else (true,
                  with_projects st1
                    (alter (λ p, set_members (members p ++ [userId]) now p)
                           projectIndex (PROJECTS st1)))
        | None => (true, st1)
        end
  end.

(** rejectInvitation(invitationId) *)
Definition rejectInvitation (st : Storage) (iid : string) : bool * Storage :=
  match list_find (λ inv, invitationId inv = iid) (INVITATIONS st) with
  | None => (false, st)
  | Some (invitationIndex, _) =>
      (true, with_invitations st
               (alter (set_status rejected) invitationIndex (INVITATIONS st)))
  end.

(** getTasksByProject(projectId, userId) *)
Definition getTasksByProject (st : Storage) (pid userId : string)
    : list (gmap string JsVal) :=
  match getProject st pid userId with
  | None => []
  | Some _ => filter (λ task, prop task "projectId" = JStr pid) (TASKS st)
  end.

(** The permission test of updateTask, as the three [const]s compute it. *)
Definition canEdit (project : Project) (task : gmap string JsVal) (userId : string) : bool :=
  let isOwner := bool_decide (ownerId project = userId) in
  let isAssignee := bool_decide (prop task "assignee" = JStr userId) in
  isOwner
  || (isAssignee
      && match settings project with
         | Some s => allowMemberTaskEdit s
         | None => false
         end).

(** updateTask(taskId, updates, userId); [null] is [Returned None]. *)
Definition updateTask (now : Z) (st : Storage) (taskId : string)
    (updates : gmap string JsVal) (userId : string)
    : Outcome (option (gmap string JsVal)) * Storage :=
  match list_find (λ t, prop t "taskId" = JStr taskId) (TASKS st) with
  | None => (Returned None, st)
  | Some (taskIndex, task) =>
      match getProjectOf st (prop task "projectId") userId with
      | None => (Thrown "Project not found or access denied", st)
      | Some project =>
          if negb (canEdit project task userId)
          then (Thrown "You do not have permission to edit this task", st)
          else
            let updatedTask :=
              <["updatedAt" := JDate now]> (spread task updates) in
            let updatedTask :=
              if bool_decide (prop updates "status" = JStr "completed")
                 && bool_decide (prop task "status" ≠ JStr "completed")
              then <["completedAt" := JDate now]> updatedTask
              else updatedTask in
            (Returned (Some updatedTask),
             with_tasks st (<[taskIndex := updatedTask]> (TASKS st)))
      end
  end.

(** removeMember(projectId, memberUserId, currentUserId) *)
Definition removeMember (now : Z) (st : Storage) (pid memberUserId currentUserId : string)
    : Outcome bool * Storage :=
  match getProject st pid currentUserId with
  | None => (Returned false, st)
  | Some project =>
      if bool_decide (ownerId project ≠ currentUserId)
      then (Thrown "Only the project owner can remove members", st)
      else if bool_decide (memberUserId = ownerId project)
      then (Thrown "Cannot remove the project owner", st)
      else
        match list_find (λ p, projectId p = pid) (PROJECTS st) with
        | Some (projectIndex, _) =>
            (Returned true,
             with_projects st
               (alter (λ p, set_members
                              (filter (λ memberId, memberId ≠ memberUserId) (members p))
                              now p)
                      projectIndex (PROJECTS st)))
        | None => (Returned false, st)
        end
  end.

End Client.

(** ** The server: Express handlers over PostgreSQL *)

Module Server.
Import Js.

(** *** Tables (migration script)

    The columns that no modelled handler reads or writes (password hashes,
    avatars, descriptions, time stamps of users, projects and memberships)
    are left out of the rows.

    The ids are uuid columns, compared by PostgreSQL as uuid values.  An id
    in a row is the stored spelling of its value, and so is [req.user.id],
    which the middleware reads from the users table.  A request parameter
    that a handler does nothing with but bind it to a uuid column is given
    as the value it denotes; a text that denotes no uuid makes the statement
    fail, which is one of the failing calls of the oracle below.  Where a
    handler looks at the text of a parameter itself (the member route), the
    text is kept. *)

(** CHECK (status IN ('pending', 'accepted', 'rejected', 'expired')) *)
Inductive InvStatus := pending | accepted | rejected | expired.

#[global] Instance InvStatus_eq_dec : EqDecision InvStatus.
Proof. solve_decision. Defined.

(** The JSONB column [projects.settings].  The handlers read the flags only
    for their truthiness ([settings?.flag] under [&&]), so a flag that is
    missing from the stored object is [false] here. *)
Record Settings := {
  allowMemberTaskEdit : bool;
  allowMemberTaskCreate : bool;
  allowMemberInvite : bool }.

Record UserRow := {
  user_id : string;
  user_name : string;
  user_email : string;
  user_role : string;
  is_active : bool }.

Record ProjectRow := {
  project_id : string;
  project_title : string;
  owner_id : string;
  project_settings : option Settings }.

Record MemberRow := {
  pm_project_id : string;
  pm_user_id : string }.

Record InvitationRow := {
  inv_id : string;
  inv_project_id : string;
  inviter_id : string;
  invitee_email : string;
  inv_status : InvStatus;
  expires_at : Z;
  accepted_at : option Z;
  created_at : Z }.

#[global] Instance MemberRow_eq_dec : EqDecision MemberRow.
Proof. solve_decision. Defined.

(** A cell of a task row: NULL, a value bound from JavaScript, the text of
    [JSON.stringify(v)] stored in a JSONB column, or a [NOW()] time stamp. *)
Inductive SqlVal :=
| SqlNull
| SqlOf (v : JsVal)
| SqlJson (v : JsVal)
| SqlNow (t : Z).

#[global] Instance SqlVal_eq_dec : EqDecision SqlVal.
Proof. solve_decision. Defined.

(** What the driver hands back to JavaScript for a cell; a column that the
    row does not have reads as [undefined]. *)
Definition js_of_sql (c : option SqlVal) : JsVal :=
  match c with
  | None => JUndef
  | Some SqlNull => JNull
  | Some (SqlOf v) => v
  | Some (SqlJson v) => v
  | Some (SqlNow t) => JDate t
  end.

(** Binding a JavaScript value to a query parameter. *)
Definition sql_param (v : JsVal) : SqlVal :=
  match v with
  | JNull | JUndef => SqlNull
  | _ => SqlOf v
  end.

(** A task row is kept as a map from column names to cells: the UPDATE of
    the task handler is assembled from column names at run time. *)
Record DB := {
  users : list UserRow;
  projects : list ProjectRow;
  project_members : list MemberRow;
  invitations : list InvitationRow;
  tasks : list (gmap string SqlVal) }.

Definition with_invitations (db : DB) (ivs : list InvitationRow) : DB :=
  {| users := users db; projects := projects db;
     project_members := project_members db; invitations := ivs;
     tasks := tasks db |}.

Definition with_members (db : DB) (ms : list MemberRow) : DB :=
  {| users := users db; projects := projects db;
     project_members := ms; invitations := invitations db;
     tasks := tasks db |}.

Definition with_tasks (db : DB) (ts : list (gmap string SqlVal)) : DB :=
  {| users := users db; projects := projects db;
     project_members := project_members db; invitations := invitations db;
     tasks := ts |}.

(** [A LEFT JOIN B]: the matching rows of B, or one row of NULLs. *)
Definition left_join {B} (matching : list B) : list (option B) :=
  match matching with
  | [] => [None]
  | _ => Some <$> matching
  end.

(** *** Requests and responses *)

Inductive Payload :=
| NoData
| InvitationData (i : InvitationRow)
| ProjectIdData (pid : string)
| TaskData (row : option (gmap string SqlVal))
| TasksData (rows : list (gmap string SqlVal))
| ProjectData (p : ProjectRow) (members : list UserRow).

(** [res.status(code).json({success, message, data})] *)
Record Response := {
  code : nat;
  success : bool;
  message : string;
  data : Payload }.

Definition fail_with (c : nat) (msg : string) : Response :=
  {| code := c; success := false; message := msg; data := NoData |}.

Definition ok_with (c : nat) (msg : string) (d : Payload) : Response :=
  {| code := c; success := true; message := msg; data := d |}.

(** *** Statements, transactions and failures

    A handler is a sequence of awaited calls.  Any of them may throw (lost
    connection, violated constraint, mail server down): the oracle [fault]
    says which, by the number of calls made so far.  [db.query] runs a
    statement on the pool and commits it at once; [client.query] runs on a
    checked-out connection, on the private copy of the transaction between
    BEGIN and COMMIT. *)

Record Conn := {
  committed : DB;
  txn : option DB }.

Record World := {
  calls : nat;
  conn : Conn }.

Definition M (A : Type) : Type := World → option A * World.

Definition ret {A} (a : A) : M A := λ w, (Some a, w).

Definition bind {A B} (m : M A) (f : A → M B) : M B := λ w,
  match m w with
  | (Some a, w') => f a w'
  | (None, w') => (None, w')
  end.

Definition throw {A} : M A := λ w, (None, w).

(** [try { body } catch (error) { handler }] *)
Definition try_catch {A} (body handler : M A) : M A := λ w,
  match body w with
  | (Some a, w') => (Some a, w')
  | (None, w') => handler w'
  end.

(** [try { body } finally { cleanup }] *)
Definition finally {A} (body : M A) (cleanup : World → World) : M A := λ w,
  let '(r, w') := body w in (r, cleanup w').

Declare Scope handler_scope.
Delimit Scope handler_scope with handler.
Notation "x <~ m ;; k" := (bind m (λ x, k))
  (at level 100, m at next level, right associativity) : handler_scope.
Notation "m ;;; k" := (bind m (λ _, k))
  (at level 100, right associativity) : handler_scope.
Local Open Scope handler_scope.

Definition tick (w : World) (c : Conn) : World :=
  {| calls := S (calls w); conn := c |}.

Section Calls.
Context (fault : nat → bool).

(** An awaited call that does not touch the database (sendMail,
    pool.connect). *)
Definition ext_call : M unit := λ w,
  if fault (calls w) then (None, tick w (conn w))
  else (Some (), tick w (conn w)).

(** [await db.query(...)]; a statement answers [None] when a constraint
    rejects it. *)
Definition db_query {A} (q : DB → option (A * DB)) : M A := λ w,
  if fault (calls w) then (None, tick w (conn w))
  else match q (committed (conn w)) with
       | Some (a, db') =>
           (Some a, tick w {| committed := db'; txn := txn (conn w) |})
       | None => (None, tick w (conn w))
       end.

(** [await client.query(...)] *)
Definition client_query {A} (q : DB → option (A * DB)) : M A := λ w,
  if fault (calls w) then (None, tick w (conn w))
  else match txn (conn w) with
       | Some d =>
           match q d with
           | Some (a, d') =>
               (Some a, tick w {| committed := committed (conn w); txn := Some d' |})
           | None => (None, tick w (conn w))
           end
       | None =>
           match q (committed (conn w)) with
           | Some (a, db') =>
               (Some a, tick w {| committed := db'; txn := None |})
           | None => (None, tick w (conn w))
           end
       end.

(** [await client.query('BEGIN')] *)
Definition client_begin : M unit := λ w,
  if fault (calls w) then (None, tick w (conn w))
  else (Some (), tick w {| committed := committed (conn w);
                           txn := Some (committed (conn w)) |}).

(** [await client.query('COMMIT')] *)
Definition client_commit : M unit := λ w,
  if fault (calls w) then (None, tick w (conn w))
  else (Some (), tick w {| committed := default (committed (conn w)) (txn (conn w));
                           txn := None |}).

(** [await client.query('ROLLBACK')] *)
Definition client_rollback : M unit := λ w,
  if fault (calls w) then (None, tick w (conn w))
  else (Some (), tick w {| committed := committed (conn w); txn := None |}).

(** [client.release()]: work that was never committed is gone with the
    connection. *)
Definition client_release (w : World) : World :=
  {| calls := calls w;
     conn := {| committed := committed (conn w); txn := None |} |}.

(** The outer [try { ... } catch (error) { res.status(500)... }] of every
    handler, started on database [db]; the answer and the committed state. *)
Definition run_handler (failure : string) (h : M Response) (db : DB) : Response * DB :=
  match h {| calls := 0; conn := {| committed := db; txn := None |} |} with
  | (Some r, w) => (r, committed (conn w))
  | (None, w) => (fail_with 500 failure, committed (conn w))
  end.

(** A read-only statement. *)
Definition select {A} (q : DB → A) : DB → option (A * DB) :=
  λ db, Some (q db, db).

End Calls.

(** *** Invitation routes *)

Definition set_inv_status (s : InvStatus) (acc : option Z) (i : InvitationRow) : InvitationRow :=
  {| inv_id := inv_id i; inv_project_id := inv_project_id i;
     inviter_id := inviter_id i; invitee_email := invitee_email i;
     inv_status := s; expires_at := expires_at i;
     accepted_at := acc; created_at := created_at i |}.

(** SELECT ... FROM projects p LEFT JOIN project_members pm
      ON pm.project_id = p.id AND pm.user_id = $2 WHERE p.id = $1;
    the second component is the column [is_member]. *)
Definition projectQuery (pid uid : string) (db : DB) : list (ProjectRow * option string) :=
  p ← filter (λ p, project_id p = pid) (projects db);
  (λ pm : option MemberRow, (p, pm_user_id <$> pm))
    <$> left_join (filter (λ pm, pm_project_id pm = project_id p ∧ pm_user_id pm = uid)
                          (project_members db)).

(** SELECT pm.id FROM project_members pm JOIN users u ON u.id = pm.user_id
    WHERE pm.project_id = $1 AND u.email = $2 *)
Definition existingMemberQuery (pid email : string) (db : DB) : list MemberRow :=
  pm ← filter (λ pm, pm_project_id pm = pid) (project_members db);
  u ← filter (λ u, user_id u = pm_user_id pm ∧ user_email u = email) (users db);
  [pm].

Section Handlers.
(** [now] is NOW(), the clock of the database, during the request. *)
Context (fault : nat → bool) (now : Z).

(** SELECT id FROM invitations WHERE project_id = $1 AND invitee_email = $2
    AND status = 'pending' AND expires_at > NOW() *)
Definition existingInvitationQuery (pid email : string) (db : DB) : list InvitationRow :=
  filter (λ i, inv_project_id i = pid ∧ invitee_email i = email
               ∧ inv_status i = pending ∧ (now < expires_at i)%Z)
         (invitations db).

Definition SEVEN_DAYS : Z := 7 * 24 * 60 * 60 * 1000.

(** INSERT INTO invitations (project_id, inviter_id, invitee_email, expires_at)
    VALUES ($1, $2, $3, $4) RETURNING ...; [newId] is gen_random_uuid(),
    [created_at] is the column default NOW() of the database, [expiresAt] is
    the parameter the handler binds. *)
Definition insertInvitation (newId pid inviter email : string) (expiresAt : Z)
    (db : DB) : option (InvitationRow * DB) :=
  let row := {| inv_id := newId; inv_project_id := pid; inviter_id := inviter;
                invitee_email := email; inv_status := pending;
                expires_at := expiresAt; accepted_at := None;
                created_at := now |} in
  Some (row, with_invitations db (invitations db ++ [row])).

(** router.post('/') of the invitation routes.  [valid] is the verdict of
    [createInvitationSchema.validate(req.body)] on the body
    [{email, projectId}]; [toLowerCase] is [String.prototype.toLowerCase]
    and [dateNow] is [Date.now()], the clock of the Node process, which is
    not the clock of [NOW()].  The last awaited call makes the transporter
    and sends the mail. *)
Definition post_invitation (toLowerCase : string → string) (dateNow : Z)
    (valid : bool) (newId : string) (user : UserRow)
    (email pid : string) : M Response :=
  if negb valid then ret (fail_with 400 "Validation error")
  else
    projectResult <~ db_query fault (select (projectQuery pid (user_id user)));;
    match projectResult with
    | [] => ret (fail_with 404 "Project not found")
    | (project, is_member) :: _ =>
        let isOwner := bool_decide (owner_id project = user_id user) in
        let isMember := bool_decide (is_member ≠ None) in
        let canInvite :=
          isOwner
          || (isMember
              && match project_settings project with
                 | Some s => allowMemberInvite s
                 | None => false
                 end) in
        if negb canInvite
        then ret (fail_with 403 "You do not have permission to invite members")
        else
          existingMember <~
            db_query fault (select (existingMemberQuery pid (toLowerCase email)));;
          if bool_decide (0 < length existingMember)
          then ret (fail_with 409 "User is already a member of this project")
          else
            existingInvitation <~
              db_query fault (select (existingInvitationQuery pid (toLowerCase email)));;
            if bool_decide (0 < length existingInvitation)
            then ret (fail_with 409 "Invitation already sent to this email")
            else
              let expiresAt := (dateNow + SEVEN_DAYS)%Z in
              invitation <~
                db_query fault
                  (insertInvitation newId pid (user_id user) (toLowerCase email) expiresAt);;
              ext_call fault;;;
              ret (ok_with 201 "Invitation sent successfully" (InvitationData invitation))
    end.

(** SELECT i.*, p.title as project_title FROM invitations i
    JOIN projects p ON p.id = i.project_id
    WHERE i.id = $1 AND i.status = 'pending' AND i.expires_at > NOW() *)
Definition invitationQuery (iid : string) (db : DB) : list (InvitationRow * string) :=
  i ← filter (λ i, inv_id i = iid ∧ inv_status i = pending ∧ (now < expires_at i)%Z)
             (invitations db);
  p ← filter (λ p, project_id p = inv_project_id i) (projects db);
  [(i, project_title p)].

(** SELECT id FROM project_members WHERE project_id = $1 AND user_id = $2 *)
Definition memberCheckQuery (pid uid : string) (db : DB) : list MemberRow :=
  filter (λ pm, pm_project_id pm = pid ∧ pm_user_id pm = uid) (project_members db).

(** UPDATE invitations SET status = 'accepted', accepted_at = NOW() WHERE id = $2 *)
Definition markAccepted (iid : string) (db : DB) : option (unit * DB) :=
  Some (tt, with_invitations db
              ((λ i, if bool_decide (inv_id i = iid)
                     then set_inv_status accepted (Some now) i else i)
               <$> invitations db)).

(** INSERT INTO project_members (project_id, user_id) VALUES ($1, $2),
    under UNIQUE(project_id, user_id). *)
Definition insertMember (pid uid : string) (db : DB) : option (unit * DB) :=
  let row := {| pm_project_id := pid; pm_user_id := uid |} in
  if bool_decide (row ∈ project_members db) then None
  else Some (tt, with_members db (project_members db ++ [row])).

(** The template literal of the success message, with its two quotation
    marks (character 34). *)
Definition joined_message (project_title : string) : string :=
  let quote := String (ascii_of_nat 34) EmptyString in
  "Successfully joined " +:+ quote +:+ project_title +:+ quote +:+ " project!".

(** router.post('/:id/accept') *)
Definition post_accept (user : UserRow) (iid : string) : M Response :=
  invitationResult <~ db_query fault (select (invitationQuery iid));;
  match invitationResult with
  | [] => ret (fail_with 404 "Invitation not found, expired, or already processed")
  | (invitation, project_title) :: _ =>
      if bool_decide (invitee_email invitation ≠ user_email user)
      then ret (fail_with 403 "This invitation is not for your email address")
      else
        memberCheck <~
          db_query fault
            (select (memberCheckQuery (inv_project_id invitation) (user_id user)));;
        if bool_decide (0 < length memberCheck)
        then
          db_query fault (markAccepted iid);;;
          ret (ok_with 200 "You are already a member of this project" NoData)
        else
          ext_call fault;;;
          finally
            (try_catch
               (client_begin fault;;;
                client_query fault
                  (insertMember (inv_project_id invitation) (user_id user));;;
                client_query fault (markAccepted iid);;;
                client_commit fault;;;
                ret (ok_with 200 (joined_message project_title)
                       (ProjectIdData (inv_project_id invitation))))
               (client_rollback fault;;; throw))
            client_release
  end.

(** UPDATE invitations SET status = 'rejected'
    WHERE id = $1 AND invitee_email = $2 AND status = 'pending' RETURNING id *)
Definition rejectUpdate (iid email : string) (db : DB) : option (list InvitationRow * DB) :=
  let hit := λ i, bool_decide (inv_id i = iid ∧ invitee_email i = email
                               ∧ inv_status i = pending) in
  Some (filter (λ i, hit i = true) (invitations db),
        with_invitations db
          ((λ i, if hit i then set_inv_status rejected (accepted_at i) i else i)
           <$> invitations db)).

(** router.post('/:id/reject') *)
Definition post_reject (user : UserRow) (iid : string) : M Response :=
  result <~ db_query fault (rejectUpdate iid (user_email user));;
  if bool_decide (length result = 0)
  then ret (fail_with 404 "Invitation not found or already processed")
  else ret (ok_with 200 "Invitation rejected successfully" NoData).

(** *** Task routes *)

(** SELECT 1 FROM projects p LEFT JOIN project_members pm ON pm.project_id = p.id
    WHERE p.id = $1 AND (p.owner_id = $2 OR pm.user_id = $2) *)
Definition accessQuery (pid uid : string) (db : DB) : list (option MemberRow) :=
  p ← filter (λ p, project_id p = pid) (projects db);
  filter (λ pm : option MemberRow, owner_id p = uid ∨ pm_user_id <$> pm = Some uid)
         (left_join (filter (λ pm, pm_project_id pm = project_id p) (project_members db))).

Definition assignee_columns (u : option UserRow) (t : gmap string SqlVal)
    : gmap string SqlVal :=
  let col := λ f : UserRow → string, from_option (λ u, SqlOf (JStr (f u))) SqlNull u in
  <["assignee_role" := col user_role]>
    (<["assignee_email" := col user_email]>
       (<["assignee_name" := col user_name]> t)).

(** SELECT t.*, u.name as assignee_name, u.email as assignee_email,
      u.role as assignee_role
    FROM tasks t LEFT JOIN users u ON u.id = t.assignee_id
    WHERE t.project_id = $1.
    The rows come in table order: ORDER BY t.created_at DESC is not
    modelled. *)
Definition projectTasksQuery (pid : string) (db : DB) : list (gmap string SqlVal) :=
  t ← filter (λ t : gmap string SqlVal, t !! "project_id" = Some (SqlOf (JStr pid)))
             (tasks db);
  (λ u : option UserRow, assignee_columns u t)
    <$> left_join (filter (λ u, t !! "assignee_id" = Some (SqlOf (JStr (user_id u))))
                          (users db)).

(** router.get('/project/:projectId') *)
Definition get_project_tasks (user : UserRow) (pid : string) : M Response :=
  access <~ db_query fault (select (accessQuery pid (user_id user)));;
  if bool_decide (length access = 0)
  then ret (fail_with 403 "Access denied to project")
  else
    result <~ db_query fault (select (projectTasksQuery pid));;
    ret (ok_with 200 "" (TasksData result)).

(** SELECT t.*, p.owner_id, p.settings, pm.user_id as is_member
    FROM tasks t JOIN projects p ON p.id = t.project_id
    LEFT JOIN project_members pm ON pm.project_id = p.id AND pm.user_id = $2
    WHERE t.id = $1 *)
Definition taskQuery (taskId uid : string) (db : DB)
    : list (gmap string SqlVal * ProjectRow * option string) :=
  t ← filter (λ t : gmap string SqlVal, t !! "id" = Some (SqlOf (JStr taskId)))
             (tasks db);
  p ← filter (λ p, t !! "project_id" = Some (SqlOf (JStr (project_id p)))) (projects db);
  (λ pm : option MemberRow, (t, p, pm_user_id <$> pm))
    <$> left_join (filter (λ pm, pm_project_id pm = project_id p ∧ pm_user_id pm = uid)
                          (project_members db)).

(** The permission test of the update handler. *)
Definition canEdit (task : gmap string SqlVal) (project : ProjectRow)
    (is_member : option string) (user : UserRow) : bool :=
  let isOwner := bool_decide (owner_id project = user_id user) in
  let isAssignee := bool_decide (js_of_sql (task !! "assignee_id") = JStr (user_id user)) in
  let isMember := bool_decide (is_member ≠ None) in
  isOwner || isAssignee
  || (isMember
      && match project_settings project with
         | Some s => allowMemberTaskEdit s
         | None => false
         end).

Definition allowedFields : list string :=
  ["title"; "description"; "status"; "priority"; "assignee_id"; "due_date";
   "estimate"; "milestone_id"; "time_spent"; "styling"].

(** One item of the SET clause: [column = $n] or [column = NOW()]. *)
Inductive SetItem :=
| SetParam (column : string) (n : nat)
| SetNow (column : string).

(** The three variables the loop over [allowedFields] updates. *)
Record Build := {
  updateFields : list SetItem;
  values : list SqlVal;
  paramCount : nat }.

(** The value pushed for a field that the body carries. *)
Definition pushed (snakeField : string) (value : JsVal) : SqlVal :=
  if bool_decide (snakeField = "assignee_id")
  then if bool_decide (value = JStr "") || bool_decide (value = JUndef)
       then SqlNull else sql_param value
  else if bool_decide (snakeField = "styling")
  then if truthy value then SqlJson value else SqlNull
  else sql_param value.

(** The body of [for (const field of allowedFields)]. *)
Definition build_step (body : gmap string JsVal) (b : Build) (field : string) : Build :=
  let snakeField := field in
  let camelField := camelCase field in
  if bool_decide (prop body camelField ≠ JUndef)
     || bool_decide (prop body snakeField ≠ JUndef)
  then
    let value := if bool_decide (prop body camelField ≠ JUndef)
                 then prop body camelField else prop body snakeField in
    {| updateFields := updateFields b ++ [SetParam snakeField (paramCount b)];
       values := values b ++ [pushed snakeField value];
       paramCount := S (paramCount b) |}
  else b.

Definition build_update (body : gmap string JsVal) : Build :=
  foldl (build_step body)
        {| updateFields := []; values := []; paramCount := 1 |} allowedFields.

(** The column that a SET item assigns. *)
Definition item_column (item : SetItem) : string :=
  match item with
  | SetParam column _ => column
  | SetNow column => column
  end.

(** What the loop maintains: [paramCount] is one more than the number of
    values pushed, and every item assigns an allowed column from a value
    that was pushed. *)
Definition build_ok (b : Build) : Prop :=
  paramCount b = S (length (values b))
  ∧ Forall (λ item, match item with
                    | SetParam column n =>
                        column ∈ allowedFields ∧ 1 ≤ n ≤ length (values b)
                    | SetNow _ => False
                    end) (updateFields b).

(** Executing one SET item on a row; a parameter number without a value
    makes the statement fail. *)
Definition apply_set (vals : list SqlVal) (row : option (gmap string SqlVal))
    (item : SetItem) : option (gmap string SqlVal) :=
  r ← row;
  match item with
  | SetParam column n => v ← vals !! (n - 1); Some (<[column := v]> r)
  | SetNow column => Some (<[column := SqlNow now]> r)
  end.

(** UPDATE tasks SET <items>, updated_at = NOW() WHERE id = $<idParam>
    RETURNING * *)
Definition updateQuery (items : list SetItem) (vals : list SqlVal) (idParam : nat)
    (db : DB) : option (list (gmap string SqlVal) * DB) :=
  idv ← vals !! (idParam - 1);
  let upd := λ row : gmap string SqlVal,
    if bool_decide (row !! "id" = Some idv)
    then foldl (apply_set vals) (Some row) (items ++ [SetNow "updated_at"])
    else Some row in
  rows ← mapM upd (tasks db);
  Some (filter (λ row : gmap string SqlVal, row !! "id" = Some idv) rows,
        with_tasks db rows).

(** router.put('/:id') of the task routes *)
Definition put_task (user : UserRow) (taskId : string) (body : gmap string JsVal)
    : M Response :=
  taskResult <~ db_query fault (select (taskQuery taskId (user_id user)));;
  match taskResult with
  | [] => ret (fail_with 404 "Task not found")
  | (task, project, is_member) :: _ =>
      if negb (canEdit task project is_member user)
      then ret (fail_with 403 "You do not have permission to edit this task")
      else
        let b := build_update body in
        let fields :=
          if bool_decide (prop body "status" = JStr "completed")
             && bool_decide (js_of_sql (task !! "status") ≠ JStr "completed")
          then updateFields b ++ [SetNow "completed_at"]
          else updateFields b in
        if bool_decide (length fields = 0)
        then ret (fail_with 400 "No valid fields to update")
        else
          let vals := values b ++ [SqlOf (JStr taskId)] in
          result <~ db_query fault (updateQuery fields vals (paramCount b));;
          ret (ok_with 200 "Task updated successfully" (TaskData (head result)))
  end.

(** *** Project routes *)

(** The [members] column of the single-project query: the owner's user row,
    then the user rows of the members other than the owner. *)
Definition members_json (p : ProjectRow) (db : DB) : list UserRow :=
  filter (λ u, user_id u = owner_id p) (users db)
  ++ (pm ← filter (λ pm, pm_project_id pm = project_id p) (project_members db);
      filter (λ u, user_id u = pm_user_id pm ∧ user_id u ≠ owner_id p) (users db)).

(** SELECT p.*, ..., (members) FROM projects p JOIN users u ON u.id = p.owner_id
    LEFT JOIN project_members pm ON pm.project_id = p.id
    WHERE p.id = $1 AND (p.owner_id = $2 OR pm.user_id = $2)
    GROUP BY p.id, u.id *)
Definition projectByIdQuery (pid uid : string) (db : DB)
    : list (ProjectRow * list UserRow) :=
  p ← filter (λ p, project_id p = pid) (projects db);
  u ← filter (λ u, user_id u = owner_id p) (users db);
  if bool_decide
       (Exists (λ pm : option MemberRow, owner_id p = uid ∨ pm_user_id <$> pm = Some uid)
               (left_join (filter (λ pm, pm_project_id pm = project_id p)
                                  (project_members db))))
  then [(p, members_json p db)]
  else [].

(** router.get('/:id') of the project routes *)
Definition get_project (user : UserRow) (pid : string) : M Response :=
  result <~ db_query fault (select (projectByIdQuery pid (user_id user)));;
  match result with
  | [] => ret (fail_with 404 "Project not found or access denied")
  | (p, ms) :: _ => ret (ok_with 200 "" (ProjectData p ms))
  end.

(** SELECT id FROM projects WHERE id = $1 AND owner_id = $2 *)
Definition ownerCheckQuery (pid uid : string) (db : DB) : list ProjectRow :=
  filter (λ p, project_id p = pid ∧ owner_id p = uid) (projects db).

(** DELETE FROM project_members WHERE project_id = $1 AND user_id = $2;
    the answer is [result.rowCount]. *)
Definition removeQuery (pid uid : string) (db : DB) : option (nat * DB) :=
  let hit := λ pm, pm_project_id pm = pid ∧ pm_user_id pm = uid in
  Some (length (filter hit (project_members db)),
        with_members db (filter (λ pm, ¬ hit pm) (project_members db))).

(** router.delete('/:id/members/:userId').  [userId] is the text of the path
    segment: the handler compares this text with [req.user.id], and the
    DELETE binds it to a uuid column.  [uuid_in] is PostgreSQL's reading of
    such a text: the stored spelling of the uuid it denotes, or [None] when
    it denotes none and the statement fails. *)
Definition delete_member (uuid_in : string → option string) (user : UserRow)
    (pid userId : string) : M Response :=
  ownerCheck <~ db_query fault (select (ownerCheckQuery pid (user_id user)));;
  if bool_decide (length ownerCheck = 0)
  then ret (fail_with 403 "Only project owner can remove members")
  else if bool_decide (userId = user_id user)
  then ret (fail_with 400 "Cannot remove project owner")
  else
    rowCount <~ db_query fault (λ db, uuid_in userId ≫= λ uid, removeQuery pid uid db);;
    if bool_decide (rowCount = 0)
    then ret (fail_with 404 "Member not found in project")
    else ret (ok_with 200 "Member removed successfully" NoData).

End Handlers.

(** No awaited call fails. *)
Definition no_fault : nat → bool := λ _, false.

(** Only the fifth awaited call fails: in the invitation route, the step
    that makes the transporter and sends the mail. *)
Definition mail_fails : nat → bool := λ n, Nat.eqb n 4.

(** The routes as mounted: handler plus the outer catch with its message. *)
Definition invitations_post (fault : nat → bool) (now : Z)
    (toLowerCase : string → string) (dateNow : Z) (valid : bool)
    (newId : string) (user : UserRow) (email pid : string) : DB → Response * DB :=
  run_handler "Failed to send invitation"
              (post_invitation fault now toLowerCase dateNow valid newId user email pid).

Definition invitations_accept (fault : nat → bool) (now : Z) (user : UserRow)
    (iid : string) : DB → Response * DB :=
  run_handler "Failed to accept invitation" (post_accept fault now user iid).

Definition invitations_reject (fault : nat → bool) (user : UserRow)
    (iid : string) : DB → Response * DB :=
  run_handler "Failed to reject invitation" (post_reject fault user iid).

Definition tasks_of_project (fault : nat → bool) (user : UserRow)
    (pid : string) : DB → Response * DB :=
  run_handler "Failed to fetch tasks" (get_project_tasks fault user pid).

Definition tasks_put (fault : nat → bool) (now : Z) (user : UserRow)
    (taskId : string) (body : gmap string JsVal) : DB → Response * DB :=
  run_handler "Failed to update task" (put_task fault now user taskId body).

Definition projects_get (fault : nat → bool) (user : UserRow)
    (pid : string) : DB → Response * DB :=
  run_handler "Failed to fetch project" (get_project fault user pid).

Definition members_delete (fault : nat → bool) (uuid_in : string → option string)
    (user : UserRow) (pid userId : string) : DB → Response * DB :=
  run_handler "Failed to remove member" (delete_member fault uuid_in user pid userId).

End Server.

(** ** The specification's own words

    The predicates of §4.1 and the failure kinds of §4.2, written down as the
    specification states them, to compare the handlers with. *)

Module Spec.

(** canEditTask = isOwner ∨ (task.assigneeId == actor.id ∧ allowMemberTaskEdit) *)
Definition canEditTask (isOwner isAssignee allowMemberTaskEdit : bool) : bool :=
  isOwner || (isAssignee && allowMemberTaskEdit).

(** canInvite = isOwner ∨ (isMember ∧ allowMemberInvite) *)
Definition canInvite (isOwner isMember allowMemberInvite : bool) : bool :=
  isOwner || (isMember && allowMemberInvite).

Inductive InvitationError := NotFound | Expired | AlreadyProcessed | EmailMismatch.

#[global] Instance InvitationError_eq_dec : EqDecision InvitationError.
Proof. solve_decision. Defined.

(** accept / reject: "fails with NotFound if invitation missing; fails with
    Expired if now > expiresAt; fails with AlreadyProcessed if status ≠
    pending; fails with EmailMismatch if actingUserEmail ≠ inviteeEmail". *)
Definition invitation_error (now : Z) (invs : list Server.InvitationRow)
    (iid actingUserEmail : string) : option InvitationError :=
  match list_find (λ i, Server.inv_id i = iid) invs with
  | None => Some NotFound
  | Some (_, i) =>
      if bool_decide (Server.expires_at i < now)%Z then Some Expired
      else if bool_decide (Server.inv_status i ≠ Server.pending) then Some AlreadyProcessed
      else if bool_decide (actingUserEmail ≠ Server.invitee_email i) then Some EmailMismatch
      else None
  end.

End Spec.

(** ** Constraints of the schema

    What PRIMARY KEY and REFERENCES of the migration script guarantee about a
    database state. *)

Module Schema.
Import Js Server.

(** invitations.id is a primary key. *)
Definition invitation_ids_unique (db : DB) : Prop :=
  NoDup (inv_id <$> invitations db).

(** invitations.project_id REFERENCES projects(id). *)
Definition invitation_projects_exist (db : DB) : Prop :=
  Forall (λ i, Exists (λ p, project_id p = inv_project_id i) (projects db))
         (invitations db).

(** projects.id is a primary key. *)
Definition project_ids_unique (db : DB) : Prop :=
  NoDup (project_id <$> projects db).


End Schema.

(** ** Concrete states used by the examples below *)

Module Examples.
Import Js.

Definition NOW : Z := 1000.

(** The addresses and ids of the examples are written in ASCII, where
    [String.prototype.toLowerCase] turns the capital letters A to Z into a
    to z and keeps every other character. *)
Fixpoint lower (s : string) : string :=
  match s with
  | EmptyString => EmptyString
  | String c rest =>
      let n := nat_of_ascii c in
      String (if (65 <=? n) && (n <=? 90) then ascii_of_nat (n + 32) else c)
             (lower rest)
  end.

(** The ids of the examples stand for uuids: PostgreSQL reads the digits
    of a uuid in either case and stores them in lower case. *)
Definition uuid_in (s : string) : option string := Some (lower s).

Module Store.
Import Client.

Definition defaults (invite : bool) : Settings :=
  {| allowMemberTaskEdit := true; allowMemberTaskCreate := false;
     allowMemberInvite := invite |}.

(** Project "p1": owner "u1", members "u1" and "u2", members may invite. *)
Definition launch : Project :=
  {| projectId := "p1"; title := "Launch"; description := "";
     ownerId := "u1"; members := ["u1"; "u2"];
     settings := Some (defaults true); createdAt := 0; updatedAt := 0 |}.

Definition invite (iid pid email : string) (s : InvStatus) (expires : Z)
    : ProjectInvitation :=
  {| invitationId := iid; inv_projectId := pid; inviterUserId := "u1";
     inviteeEmail := email; status := s; inv_createdAt := 0;
     expiresAt := expires |}.

(** A pending, unexpired invitation "i1" whose project "p9" is not in the
    projects array. *)
Definition orphaned : Storage :=
  {| PROJECTS := [launch]; TASKS := [];
     INVITATIONS := [invite "i1" "p9" "c@x.com" pending 5000] |}.

(** "i1" is pending but expired at [NOW], "i2" was accepted. *)
Definition stale : Storage :=
  {| PROJECTS := [launch]; TASKS := [];
     INVITATIONS := [invite "i1" "p1" "c@x.com" pending 500;
                     invite "i2" "p1" "d@x.com" accepted 5000] |}.

Definition task (status : string) (assignee : string) : gmap string JsVal :=
  <["taskId" := JStr "t1"]>
    (<["projectId" := JStr "p1"]>
       (<["status" := JStr status]>
          (<["assignee" := JStr assignee]>
             (<["description" := JStr "draft"]> ∅)))).

Definition board (status : string) : Storage :=
  {| PROJECTS := [launch]; TASKS := [task status "u2"]; INVITATIONS := [] |}.

End Store.

Module Db.
Import Server.

Definition person (id email : string) : UserRow :=
  {| user_id := id; user_name := id; user_email := email;
     user_role := "general"; is_active := true |}.

Definition owner := person "u1" "o@x.com".
Definition member := person "u2" "m@x.com".
Definition outsider := person "u3" "c@x.com".

Definition launch (edit : bool) : ProjectRow :=
  {| project_id := "p1"; project_title := "Launch"; owner_id := "u1";
     project_settings :=
       Some {| allowMemberTaskEdit := edit; allowMemberTaskCreate := false;
               allowMemberInvite := false |} |}.

Definition invite (iid email : string) (s : InvStatus) (expires : Z) : InvitationRow :=
  {| inv_id := iid; inv_project_id := "p1"; inviter_id := "u1";
     invitee_email := email; inv_status := s; expires_at := expires;
     accepted_at := None; created_at := 0 |}.

Definition task (status assignee : string) : gmap string SqlVal :=
  <["id" := SqlOf (JStr "t1")]>
    (<["project_id" := SqlOf (JStr "p1")]>
       (<["status" := SqlOf (JStr status)]>
          (<["assignee_id" := SqlOf (JStr assignee)]>
             (<["tags" := SqlOf (JObj "[]")]>
                (<["completed_at" := SqlNull]> ∅))))).

(** Project "p1" of "u1" with member "u2"; task "t1" is assigned to
    [assignee]; "i1" is pending and live at [NOW], "i2" is pending and
    expired, "i3" was accepted. *)
Definition db (edit : bool) (status assignee : string) : DB :=
  {| users := [owner; member; outsider];
     projects := [launch edit];
     project_members := [ {| pm_project_id := "p1"; pm_user_id := "u1" |};
                          {| pm_project_id := "p1"; pm_user_id := "u2" |} ];
     invitations := [invite "i1" "c@x.com" pending 5000;
                     invite "i2" "c@x.com" pending 500;
                     invite "i3" "c@x.com" accepted 5000];
     tasks := [task status assignee] |}.

End Db.

End Examples.

(** ** The client: the other methods of DataService *)

Module ClientMore.
Import Js Client.

(** The argument of createProject: a project without [projectId],
    [createdAt] and [updatedAt]. *)
Record NewProject := {
  np_title : string;
  np_description : string;
  np_ownerId : string;
  np_members : list string;
  np_settings : option Settings }.

(** The defaults that createProject spreads the given settings over. *)
Definition DEFAULT_SETTINGS : Settings :=
  {| allowMemberTaskEdit := true; allowMemberTaskCreate := false;
     allowMemberInvite := false |}.

(** createProject(project); [newId] is the generated uuid. *)
Definition createProject (now : Z) (newId : string) (st : Storage)
    (project : NewProject) : Project * Storage :=
  let newProject :=
    {| projectId := newId; title := np_title project;
       description := np_description project; ownerId := np_ownerId project;
       members := np_members project;
       settings := Some (default DEFAULT_SETTINGS (np_settings project));
       createdAt := now; updatedAt := now |} in
  (newProject, with_projects st (PROJECTS st ++ [newProject])).

(** getProjectsByUser(userId) *)
Definition getProjectsByUser (st : Storage) (userId : string) : list Project :=
  filter (λ project, ownerId project = userId ∨ userId ∈ members project)
         (PROJECTS st).

(** The [updates] of updateProject, a [Partial<Project>]: a field is either
    left out or carries a value ([settings], optional in [Project], may also
    be given as [undefined]).  An [updatedAt] among the updates is overridden
    by the method and therefore not kept here. *)
Record ProjectUpdates := {
  up_projectId : option string;
  up_title : option string;
  up_description : option string;
  up_ownerId : option string;
  up_members : option (list string);
  up_settings : option (option Settings);
  up_createdAt : option Z }.

(** [{...project, ...updates, updatedAt: new Date()}] *)
Definition spread_project (now : Z) (project : Project) (updates : ProjectUpdates)
    : Project :=
  {| projectId := default (projectId project) (up_projectId updates);
     title := default (title project) (up_title updates);
     description := default (description project) (up_description updates);
     ownerId := default (ownerId project) (up_ownerId updates);
     members := default (members project) (up_members updates);
     settings := default (settings project) (up_settings updates);
     createdAt := default (createdAt project) (up_createdAt updates);
     updatedAt := now |}.

(** updateProject(projectId, updates, userId); [null] is [Returned None]. *)
Definition updateProject (now : Z) (st : Storage) (pid : string)
    (updates : ProjectUpdates) (userId : string)
    : Outcome (option Project) * Storage :=
  match list_find (λ p, projectId p = pid) (PROJECTS st) with
  | None => (Returned None, st)
  | Some (projectIndex, project) =>
      if bool_decide (ownerId project ≠ userId)
      then (Thrown "Only the project owner can update project settings", st)
      else
        let updatedProject := spread_project now project updates in
        (Returned (Some updatedProject),
         with_projects st (<[projectIndex := updatedProject]> (PROJECTS st)))
  end.

(** The permission test of createTask. *)
Definition canCreate (project : Project) (userId : string) : bool :=
  let isOwner := bool_decide (ownerId project = userId) in
  let isMember := bool_decide (userId ∈ members project) in
  isOwner
  || (isMember
      && match settings project with
         | Some s => allowMemberTaskCreate s
         | None => false
         end).

(** createTask(task, userId); [newId] is the generated uuid. *)
Definition createTask (now : Z) (newId : string) (st : Storage)
    (task : gmap string JsVal) (userId : string)
    : Outcome (gmap string JsVal) * Storage :=
  match getProjectOf st (prop task "projectId") userId with
  | None => (Thrown "Project not found or access denied", st)
  | Some project =>
      if negb (canCreate project userId)
      then (Thrown "You do not have permission to create tasks in this project", st)
      else
        let newTask :=
          <["updatedAt" := JDate now]>
            (<["createdAt" := JDate now]>
               (<["priority" := if truthy (prop task "priority")
                                then prop task "priority" else JStr "medium"]>
                  (<["taskId" := JStr newId]> task))) in
        (Returned newTask, with_tasks st (TASKS st ++ [newTask]))
  end.

(** getTask(taskId, userId) *)
Definition getTask (st : Storage) (taskId userId : string)
    : option (gmap string JsVal) :=
  match list_find (λ t, prop t "taskId" = JStr taskId) (TASKS st) with
  | None => None
  | Some (_, task) =>
      match getProjectOf st (prop task "projectId") userId with
      | None => None
      | Some _ => Some task
      end
  end.

(** deleteTask(taskId, userId) *)
Definition deleteTask (st : Storage) (taskId userId : string)
    : Outcome bool * Storage :=
  match list_find (λ t, prop t "taskId" = JStr taskId) (TASKS st) with
  | None => (Returned false, st)
  | Some (taskIndex, task) =>
      match getProjectOf st (prop task "projectId") userId with
      | None => (Returned false, st)
      | Some project =>
          if bool_decide (ownerId project ≠ userId)
          then (Thrown "Only the project owner can delete tasks", st)
          else (Returned true, with_tasks st (delete taskIndex (TASKS st)))
      end
  end.

(** *** User sessions (STORAGE_KEYS.USER_SESSIONS) *)

Inductive Role := frontend | backend | design | marketing | general.

Record User := {
  userId : string;
  email : string;
  name : string;
  role : Role }.

Record UserSession := {
  s_userId : string;
  s_email : string;
  s_name : string;
  s_role : Role;
  accessibleProjects : list string;
  isActive : bool;
  lastLoginAt : Z }.

(** createUserSession(user): the sessions array is passed beside the
    storage of projects that [getProjectsByUser] reads. *)
Definition createUserSession (now : Z) (st : Storage) (sessions : list UserSession)
    (user : User) : UserSession * list UserSession :=
  let filteredSessions := filter (λ s, s_userId s ≠ userId user) sessions in
  let session :=
    {| s_userId := userId user; s_email := email user; s_name := name user;
       s_role := role user;
       accessibleProjects := projectId <$> getProjectsByUser st (userId user);
       isActive := true; lastLoginAt := now |} in
  (session, filteredSessions ++ [session]).

(** getUserSession(userId) *)
Definition getUserSession (sessions : list UserSession) (uid : string)
    : option UserSession :=
  snd <$> list_find (λ s, s_userId s = uid ∧ isActive s = true) sessions.

Definition deactivate (s : UserSession) : UserSession :=
  {| s_userId := s_userId s; s_email := s_email s; s_name := s_name s;
     s_role := s_role s; accessibleProjects := accessibleProjects s;
     isActive := false; lastLoginAt := lastLoginAt s |}.

(** logoutUser(userId) *)
Definition logoutUser (sessions : list UserSession) (uid : string)
    : list UserSession :=
  match list_find (λ s, s_userId s = uid) sessions with
  | Some (sessionIndex, _) => alter deactivate sessionIndex sessions
  | None => sessions
  end.

End ClientMore.

(** ** The server: the other routes and the authentication middleware *)

Module ServerMore.
Import Js Server.
Local Open Scope handler_scope.

(** [res.status(code).json({success, message, data})] with the payload of
    the route. *)
Record Reply (D : Type) := {
  r_code : nat;
  r_success : bool;
  r_message : string;
  r_data : option D }.
Arguments r_code {D} _.
Arguments r_success {D} _.
Arguments r_message {D} _.
Arguments r_data {D} _.

Definition refuse {D} (c : nat) (msg : string) : Reply D :=
  {| r_code := c; r_success := false; r_message := msg; r_data := None |}.

Definition answer {D} (c : nat) (msg : string) (d : D) : Reply D :=
  {| r_code := c; r_success := true; r_message := msg; r_data := Some d |}.

(** The outer try/catch of a route, as [Server.run_handler]. *)
Definition run_route {D} (failure : string) (h : M (Reply D)) (db : DB)
    : Reply D * DB :=
  match h {| calls := 0; conn := {| committed := db; txn := None |} |} with
  | (Some r, w) => (r, committed (conn w))
  | (None, w) => (refuse 500 failure, committed (conn w))
  end.

(** invitations.inviter_id REFERENCES users(id). *)
Definition invitation_inviters_exist (db : DB) : Prop :=
  Forall (λ i, Exists (λ u, user_id u = inviter_id i) (users db)) (invitations db).

(** *** Invitation routes: details and received *)

(** The columns of the details query. *)
Record InvitationDetails := {
  d_id : string;
  d_project_id : string;
  d_invitee_email : string;
  d_status : InvStatus;
  d_expires_at : Z;
  d_created_at : Z;
  d_project_title : string;
  d_inviter_name : string;
  d_inviter_email : string }.

(** SELECT i.id, ..., p.title, u.name, u.email FROM invitations i
    JOIN projects p ON p.id = i.project_id JOIN users u ON u.id = i.inviter_id
    WHERE i.id = $1 *)
Definition detailsQuery (iid : string) (db : DB) : list InvitationDetails :=
  i ← filter (λ i, inv_id i = iid) (invitations db);
  p ← filter (λ p, project_id p = inv_project_id i) (projects db);
  u ← filter (λ u, user_id u = inviter_id i) (users db);
  [{| d_id := inv_id i; d_project_id := inv_project_id i;
      d_invitee_email := invitee_email i; d_status := inv_status i;
      d_expires_at := expires_at i; d_created_at := created_at i;
      d_project_title := project_title p; d_inviter_name := user_name u;
      d_inviter_email := user_email u |}].

(** [`${invitation.status}`] *)
Definition status_text (s : InvStatus) : string :=
  match s with
  | pending => "pending"
  | accepted => "accepted"
  | rejected => "rejected"
  | expired => "expired"
  end.

(** The columns of the received query: those of the details query but
    [invitee_email]. *)
Record ReceivedRow := {
  rc_id : string;
  rc_project_id : string;
  rc_status : InvStatus;
  rc_expires_at : Z;
  rc_created_at : Z;
  rc_project_title : string;
  rc_inviter_name : string;
  rc_inviter_email : string }.

(** The order of [ORDER BY created_at DESC]. *)
Definition newer_first (a b : ReceivedRow) : Prop :=
  (rc_created_at b ≤ rc_created_at a)%Z.

#[global] Instance newer_first_dec a b : Decision (newer_first a b).
Proof. unfold newer_first. apply _. Defined.

Section Routes.
Context (fault : nat → bool) (now : Z).

(** router.get('/:id') of the invitation routes; [dateNow] is [new Date()],
    the clock of the Node process. *)
Definition get_invitation (dateNow : Z) (iid : string) : M (Reply InvitationDetails) :=
  result <~ db_query fault (select (detailsQuery iid));;
  match result with
  | [] => ret (refuse 404 "Invitation not found")
  | invitation :: _ =>
      if bool_decide (d_expires_at invitation ≤ dateNow)%Z
      then ret (refuse 410 "Invitation has expired")
      else if bool_decide (d_status invitation ≠ pending)
      then ret (refuse 410 ("Invitation has already been "
                            +:+ status_text (d_status invitation)))
      else ret (answer 200 "" invitation)
  end.

(** SELECT ... FROM invitations i JOIN projects p ON p.id = i.project_id
    JOIN users u ON u.id = i.inviter_id
    WHERE i.invitee_email = $1 AND i.status = 'pending' AND i.expires_at > NOW()
    ORDER BY i.created_at DESC.
    Rows with the same [created_at] come in the order the merge sort gives. *)
Definition receivedQuery (email : string) (db : DB) : list ReceivedRow :=
  merge_sort newer_first
    (i ← filter (λ i, invitee_email i = email ∧ inv_status i = pending
                      ∧ (now < expires_at i)%Z) (invitations db);
     p ← filter (λ p, project_id p = inv_project_id i) (projects db);
     u ← filter (λ u, user_id u = inviter_id i) (users db);
     [{| rc_id := inv_id i; rc_project_id := inv_project_id i;
         rc_status := inv_status i;
         rc_expires_at := expires_at i; rc_created_at := created_at i;
         rc_project_title := project_title p; rc_inviter_name := user_name u;
         rc_inviter_email := user_email u |}]).

(** router.get('/received') *)
Definition get_received (user : UserRow) : M (Reply (list ReceivedRow)) :=
  result <~ db_query fault (select (receivedQuery (user_email user)));;
  ret (answer 200 "" result).

(** *** Task routes: create and delete *)

(** INSERT INTO tasks (project_id, title, description, status, priority,
      assignee_id, due_date, estimate, tags, milestone_id) VALUES (...)
    RETURNING *.
    [value] is the validated body, with the defaults of the schema filled in;
    the columns that are not listed get their defaults ([id] from
    gen_random_uuid(), [time_spent] 0, both time stamps NOW()) or NULL.  A
    value that a constraint rejects is one of the failures of the oracle. *)
Definition insertTask (newId pid : string) (value : gmap string JsVal) (db : DB)
    : option (gmap string SqlVal * DB) :=
  let row : gmap string SqlVal :=
    list_to_map
      [("id", SqlOf (JStr newId));
       ("project_id", SqlOf (JStr pid));
       ("title", sql_param (prop value "title"));
       ("description", sql_param (prop value "description"));
       ("status", sql_param (prop value "status"));
       ("priority", sql_param (prop value "priority"));
       ("assignee_id", sql_param (prop value "assigneeId"));
       ("due_date", sql_param (prop value "dueDate"));
       ("estimate", sql_param (prop value "estimate"));
       ("tags", sql_param (prop value "tags"));
       ("milestone_id", sql_param (prop value "milestoneId"));
       ("time_spent", SqlOf (JNum 0));
       ("success_metrics", SqlNull);
       ("styling", SqlNull);
       ("rich_content", SqlNull);
       ("completed_at", SqlNull);
       ("created_at", SqlNow now);
       ("updated_at", SqlNow now)] in
  Some (row, with_tasks db (tasks db ++ [row])).

(** router.post('/') of the task routes.  [valid] is the verdict of
    [createTaskSchema.validate(req.body)], [pid] is [value.projectId]. *)
Definition post_task (valid : bool) (newId : string) (user : UserRow)
    (pid : string) (value : gmap string JsVal)
    : M (Reply (gmap string SqlVal)) :=
  if negb valid then ret (refuse 400 "Validation error")
  else
    permissionResult <~ db_query fault (select (projectQuery pid (user_id user)));;
    match permissionResult with
    | [] => ret (refuse 404 "Project not found")
    | (project, is_member) :: _ =>
        let isOwner := bool_decide (owner_id project = user_id user) in
        let isMember := bool_decide (is_member ≠ None) in
        let canCreate :=
          isOwner
          || (isMember
              && match project_settings project with
                 | Some s => allowMemberTaskCreate s
                 | None => false
                 end) in
        if negb canCreate
        then ret (refuse 403 "You do not have permission to create tasks in this project")
        else
          task <~ db_query fault (insertTask newId pid value);;
          ret (answer 201 "Task created successfully" task)
    end.

(** SELECT t.id FROM tasks t JOIN projects p ON p.id = t.project_id
    WHERE t.id = $1 AND p.owner_id = $2 *)
Definition taskOwnerQuery (taskId uid : string) (db : DB) : list (gmap string SqlVal) :=
  t ← filter (λ t : gmap string SqlVal, t !! "id" = Some (SqlOf (JStr taskId)))
             (tasks db);
  p ← filter (λ p, t !! "project_id" = Some (SqlOf (JStr (project_id p)))
                   ∧ owner_id p = uid) (projects db);
  [t].

(** DELETE FROM tasks WHERE id = $1 *)
Definition deleteTaskQuery (taskId : string) (db : DB) : option (unit * DB) :=
  Some (tt, with_tasks db
              (filter (λ t : gmap string SqlVal,
                         t !! "id" ≠ Some (SqlOf (JStr taskId))) (tasks db))).

(** router.delete('/:id') of the task routes *)
Definition delete_task (user : UserRow) (taskId : string) : M (Reply unit) :=
  ownerCheck <~ db_query fault (select (taskOwnerQuery taskId (user_id user)));;
  if bool_decide (length ownerCheck = 0)
  then ret (refuse 403 "Only project owner can delete tasks")
  else
    db_query fault (deleteTaskQuery taskId);;;
    ret (answer 200 "Task deleted successfully" tt).

(** *** Project routes: create, update, delete *)

(** INSERT INTO projects (title, description, owner_id, settings)
    VALUES (...) RETURNING ..., under the primary key on [id]. *)
Definition insertProject (newId title owner : string) (settings : Settings) (db : DB)
    : option (ProjectRow * DB) :=
  if bool_decide (newId ∈ project_id <$> projects db) then None
  else
    let row := {| project_id := newId; project_title := title; owner_id := owner;
                  project_settings := Some settings |} in
    Some (row, {| users := users db; projects := projects db ++ [row];
                  project_members := project_members db;
                  invitations := invitations db; tasks := tasks db |}).

(** router.post('/') of the project routes.  [valid] is the verdict of
    [createProjectSchema.validate(req.body)]; [title] and [settings] are
    those of the validated value. *)
Definition post_project (valid : bool) (newId : string) (user : UserRow)
    (title : string) (settings : Settings) : M (Reply ProjectRow) :=
  if negb valid then ret (refuse 400 "Validation error")
  else
    ext_call fault;;;
    finally
      (try_catch
         (client_begin fault;;;
          project <~ client_query fault
                       (insertProject newId title (user_id user) settings);;
          client_query fault (insertMember (project_id project) (user_id user));;;
          client_commit fault;;;
          ret (answer 201 "Project created successfully" project))
         (client_rollback fault;;; throw))
      client_release.

(** The [settings] object of an update body: each flag is optional. *)
Record SettingsPatch := {
  sp_allowMemberTaskEdit : option bool;
  sp_allowMemberTaskCreate : option bool;
  sp_allowMemberInvite : option bool }.

(** The validated body of an update: every field is optional. *)
Record ProjectPatch := {
  pp_title : option string;
  pp_description : option string;
  pp_settings : option SettingsPatch }.

(** What [JSON.stringify(value.settings)] stores, read as the handlers read
    it: a flag that the object does not carry is falsy. *)
Definition stored_settings (sp : SettingsPatch) : Settings :=
  {| allowMemberTaskEdit := default false (sp_allowMemberTaskEdit sp);
     allowMemberTaskCreate := default false (sp_allowMemberTaskCreate sp);
     allowMemberInvite := default false (sp_allowMemberInvite sp) |}.

(** UPDATE projects SET <the fields of the body>, updated_at = NOW()
    WHERE id = $n RETURNING ... *)
Definition updateProjectQuery (pid : string) (patch : ProjectPatch) (db : DB)
    : option (list ProjectRow * DB) :=
  let upd := λ p,
    if bool_decide (project_id p = pid)
    then {| project_id := project_id p;
            project_title := default (project_title p) (pp_title patch);
            owner_id := owner_id p;
            project_settings :=
              match pp_settings patch with
              | Some sp => Some (stored_settings sp)
              | None => project_settings p
              end |}
    else p in
  let rows := upd <$> projects db in
  Some (filter (λ p, project_id p = pid) rows,
        {| users := users db; projects := rows;
           project_members := project_members db;
           invitations := invitations db; tasks := tasks db |}).

(** router.put('/:id') of the project routes *)
Definition put_project (valid : bool) (user : UserRow) (pid : string)
    (patch : ProjectPatch) : M (Reply (option ProjectRow)) :=
  if negb valid then ret (refuse 400 "Validation error")
  else
    ownerCheck <~ db_query fault (select (ownerCheckQuery pid (user_id user)));;
    if bool_decide (length ownerCheck = 0)
    then ret (refuse 403 "Only project owner can update project settings")
    else
      if bool_decide (pp_title patch = None ∧ pp_description patch = None
                      ∧ pp_settings patch = None)
      then ret (refuse 400 "No valid fields to update")
      else
        result <~ db_query fault (updateProjectQuery pid patch);;
        ret (answer 200 "Project updated successfully" (head result)).

(** DELETE FROM projects WHERE id = $1.  The rows of project_members,
    invitations and tasks that reference the project go with it (ON DELETE
    CASCADE), and so do its milestones, whose ids are [milestones]: a task
    that references one of them gets [milestone_id] NULL (ON DELETE SET
    NULL). *)
Definition deleteProjectQuery (pid : string) (milestones : list string) (db : DB)
    : option (unit * DB) :=
  let unlink := λ t : gmap string SqlVal,
    if bool_decide (Exists (λ m, t !! "milestone_id" = Some (SqlOf (JStr m))) milestones)
    then <["milestone_id" := SqlNull]> t else t in
  Some (tt,
        {| users := users db;
           projects := filter (λ p, project_id p ≠ pid) (projects db);
           project_members :=
             filter (λ pm, pm_project_id pm ≠ pid) (project_members db);
           invitations := filter (λ i, inv_project_id i ≠ pid) (invitations db);
           tasks :=
             unlink <$> filter (λ t : gmap string SqlVal,
                                  t !! "project_id" ≠ Some (SqlOf (JStr pid)))
                               (tasks db) |}).

(** router.delete('/:id') of the project routes; [milestones] are the ids
    of the milestones of the project, a table outside [DB]. *)
Definition delete_project (milestones : list string) (user : UserRow) (pid : string)
    : M (Reply unit) :=
  ownerCheck <~ db_query fault (select (ownerCheckQuery pid (user_id user)));;
  if bool_decide (length ownerCheck = 0)
  then ret (refuse 403 "Only project owner can delete project")
  else
    db_query fault (deleteProjectQuery pid milestones);;;
    ret (answer 200 "Project deleted successfully" tt).

End Routes.

(** The permission of the create handler, on the project row and the
    membership table. *)
Definition may_create (user : UserRow) (p : ProjectRow) (db : DB) : bool :=
  bool_decide (owner_id p = user_id user)
  || (bool_decide ({| pm_project_id := project_id p; pm_user_id := user_id user |}
                   ∈ project_members db)
      && from_option allowMemberTaskCreate false (project_settings p)).

(** The routes as mounted. *)
Definition invitations_get (fault : nat → bool) (dateNow : Z) (iid : string)
    : DB → Reply InvitationDetails * DB :=
  run_route "Failed to fetch invitation" (get_invitation fault dateNow iid).

Definition invitations_received (fault : nat → bool) (now : Z) (user : UserRow)
    : DB → Reply (list ReceivedRow) * DB :=
  run_route "Failed to fetch invitations" (get_received fault now user).

Definition tasks_post (fault : nat → bool) (now : Z) (valid : bool) (newId : string)
    (user : UserRow) (pid : string) (value : gmap string JsVal)
    : DB → Reply (gmap string SqlVal) * DB :=
  run_route "Failed to create task" (post_task fault now valid newId user pid value).

Definition tasks_delete (fault : nat → bool) (user : UserRow) (taskId : string)
    : DB → Reply unit * DB :=
  run_route "Failed to delete task" (delete_task fault user taskId).

Definition projects_post (fault : nat → bool) (valid : bool) (newId : string)
    (user : UserRow) (title : string) (settings : Settings)
    : DB → Reply ProjectRow * DB :=
  run_route "Failed to create project" (post_project fault valid newId user title settings).

Definition projects_put (fault : nat → bool) (valid : bool) (user : UserRow)
    (pid : string) (patch : ProjectPatch) : DB → Reply (option ProjectRow) * DB :=
  run_route "Failed to update project" (put_project fault valid user pid patch).

Definition projects_delete (fault : nat → bool) (milestones : list string)
    (user : UserRow) (pid : string) : DB → Reply unit * DB :=
  run_route "Failed to delete project" (delete_project fault milestones user pid).

End ServerMore.

(** ** The authentication middleware *)

Module Auth.
Import Js Server ServerMore.

(** [jwt.verify(token, secret)]: what [decoded.userId] binds to the
    parameter of the query ([None] is NULL, for a payload without the
    property), or the error it throws, by the error's name.  The library is
    outside the program: its verdict on a token is a parameter. *)
Inductive Verdict :=
| Verified (userId : option string)
| TokenExpiredError
| JsonWebTokenError
| OtherError.

(** [s.split(' ')] *)
Fixpoint split_space (s : string) : list string :=
  match s with
  | EmptyString => [EmptyString]
  | String c rest =>
      if bool_decide (c = " "%char) then EmptyString :: split_space rest
      else match split_space rest with
           | w :: ws => String c w :: ws
           | [] => [String c EmptyString]
           end
  end.

(** The middleware either calls [next()], with [req.user] set, or answers. *)
Inductive Passed :=
| Next (user : UserRow)
| Halt (r : Reply unit).

(** SELECT id, name, email, role, is_active FROM users
    WHERE id = $1 AND is_active = true *)
Definition userQuery (uid : option string) (db : DB) : list UserRow :=
  filter (λ u, Some (user_id u) = uid ∧ is_active u = true) (users db).

(** authenticateToken(req, res, next); [authHeader] is
    [req.headers['authorization']]. *)
Definition authenticateToken (verify : string → Verdict) (fault : nat → bool)
    (authHeader : option string) (db : DB) : Passed :=
  let token := authHeader ≫= λ h, split_space h !! 1 in
  match token with
  | None => Halt (refuse 401 "Access token required")
  | Some token =>
      if bool_decide (token = "")
      then Halt (refuse 401 "Access token required")
      else
        match verify token with
        | Verified userId =>
            match db_query fault (select (userQuery userId))
                    {| calls := 0; conn := {| committed := db; txn := None |} |} with
            | (Some [], _) => Halt (refuse 401 "User not found or inactive")
            | (Some (user :: _), _) => Next user
            | (None, _) => Halt (refuse 500 "Authentication error")
            end
        | TokenExpiredError => Halt (refuse 401 "Token expired")
        | JsonWebTokenError => Halt (refuse 401 "Invalid token")
        | OtherError => Halt (refuse 500 "Authentication error")
        end
  end.

End Auth.

(** ** Properties of the client *)

Module ClientFacts.
Import Js Client.

(** C1 (client).  Accepting the pending, unexpired invitation "i1" of
    [Examples.Store.orphaned], whose project is not stored, answers [true] and
    leaves "i1" accepted, while no project has gained the accepting user
    "u3": the two writes of acceptInvitation do not go together. *)
Theorem acceptInvitation_accepts_without_membership :
  let '(result, st) := acceptInvitation Examples.NOW Examples.Store.orphaned "i1" "u3" in
  result = true
  ∧ status <$> INVITATIONS st = [accepted]
  ∧ PROJECTS st = PROJECTS Examples.Store.orphaned
  ∧ Forall (λ p, "u3" ∉ members p) (PROJECTS st).
Proof.
  vm_compute. repeat split.
  repeat constructor; intros H; by repeat (apply elem_of_cons in H as [?|H]; [done|]);
    apply elem_of_nil in H.
Qed.

(** Reading a property is not affected by the trip through JSON. *)
Lemma prop_jsonClean (o : gmap string JsVal) (k : string) :
  prop (jsonClean o) k = prop o k.
Proof.
  unfold prop, jsonClean. rewrite map_lookup_filter.
  destruct (o !! k) as [v|]; simpl; [|done].
  case_guard; simpl in *; [done|].
  destruct (decide (v = JUndef)) as [->|]; [done|contradiction].
Qed.

(** *** Visibility of projects (getProject) *)

Lemma getProject_Some st pid uid p :
  getProject st pid uid = Some p →
  p ∈ PROJECTS st ∧ projectId p = pid ∧ (ownerId p = uid ∨ uid ∈ members p).
Proof.
  unfold getProject.
  destruct (list_find _ _) as [[i q]|] eqn:Hfind; [|done].
  apply list_find_Some in Hfind as (Hi & Hpid & _).
  destruct (decide (ownerId q = uid)) as [Ho|Ho];
    destruct (decide (uid ∈ members q)) as [Hm|Hm];
    rewrite ?(bool_decide_eq_true_2 _ Hm), ?(bool_decide_eq_false_2 _ Hm);
    [rewrite (bool_decide_eq_false_2 (ownerId q ≠ uid)) by tauto..
    |rewrite (bool_decide_eq_true_2 (ownerId q ≠ uid)) by tauto
    |rewrite (bool_decide_eq_true_2 (ownerId q ≠ uid)) by tauto];
    simpl; intros; simplify_eq;
    eauto using list_elem_of_lookup_2.
Qed.

(** A user who is neither owner nor member of the projects with id [pid]
    gets [null] from getProject and the empty list from getTasksByProject:
    what a caller gets for an id that no project has. *)
Lemma getProject_hidden st pid uid :
  Forall (λ p, projectId p = pid → ownerId p ≠ uid ∧ uid ∉ members p) (PROJECTS st) →
  getProject st pid uid = None ∧ getTasksByProject st pid uid = [].
Proof.
  intros Hall. assert (getProject st pid uid = None) as Hnone.
  { destruct (getProject st pid uid) as [p|] eqn:Hp; [|done].
    apply getProject_Some in Hp as (Hin & Hpid & Hvis).
    rewrite Forall_forall in Hall. destruct (Hall p Hin Hpid). tauto. }
  split; [done|]. unfold getTasksByProject. by rewrite Hnone.
Qed.

Lemma getProject_unknown st pid uid :
  Forall (λ p, projectId p ≠ pid) (PROJECTS st) →
  getProject st pid uid = None ∧ getTasksByProject st pid uid = [].
Proof.
  intros Hall. apply getProject_hidden.
  eapply Forall_impl; [exact Hall|]. simpl. tauto.
Qed.

(** *** The permission test of updateTask *)

(** [canEdit] is the predicate of §4.1. *)
Lemma canEdit_spec project task uid :
  canEdit project task uid
  = Spec.canEditTask (bool_decide (ownerId project = uid))
                     (bool_decide (prop task "assignee" = JStr uid))
                     (from_option allowMemberTaskEdit false (settings project)).
Proof. unfold canEdit, Spec.canEditTask. by destruct (settings project). Qed.

(** Once the task is found and its project is visible to the caller,
    updateTask goes through exactly when the predicate of §4.1 holds. *)
Lemma updateTask_permission now st taskId updates uid k task project :
  list_find (λ t, prop t "taskId" = JStr taskId) (TASKS st) = Some (k, task) →
  getProjectOf st (prop task "projectId") uid = Some project →
  let allowed :=
    Spec.canEditTask (bool_decide (ownerId project = uid))
                     (bool_decide (prop task "assignee" = JStr uid))
                     (from_option allowMemberTaskEdit false (settings project)) in
  (allowed = false →
   updateTask now st taskId updates uid
   = (Thrown "You do not have permission to edit this task", st))
  ∧ (allowed = true →
     ∃ t', (updateTask now st taskId updates uid).1 = Returned (Some t')).
Proof.
  intros Hfind Hproj allowed. unfold updateTask. rewrite Hfind, Hproj.
  rewrite canEdit_spec. fold allowed.
  split; intros ->; simpl; [done|by eexists].
Qed.

(** *** acceptInvitation and rejectInvitation *)

(** acceptInvitation answers [true] exactly when the first invitation with
    the id is pending and not yet at its expiry; nothing else is checked. *)
Lemma acceptInvitation_true_iff now st iid uid :
  (acceptInvitation now st iid uid).1 = true ↔
  ∃ k inv, list_find (λ inv, invitationId inv = iid) (INVITATIONS st) = Some (k, inv)
           ∧ status inv = pending ∧ (now < expiresAt inv)%Z.
Proof.
  unfold acceptInvitation.
  destruct (list_find _ _) as [[k inv]|] eqn:Hfind; simpl.
  - destruct (decide (status inv = pending)) as [Hs|Hs];
      destruct (decide (expiresAt inv ≤ now)%Z) as [He|He];
      rewrite ?(bool_decide_eq_true_2 _ He), ?(bool_decide_eq_false_2 _ He);
      [rewrite (bool_decide_eq_false_2 (status inv ≠ pending)) by tauto..
      |rewrite (bool_decide_eq_true_2 (status inv ≠ pending)) by tauto
      |rewrite (bool_decide_eq_true_2 (status inv ≠ pending)) by tauto]; simpl.
    + split; [done|]. intros (? & ? & ? & ? & ?); simplify_eq. lia.
    + split.
      * intros _. exists k, inv. split_and!; [done..|lia].
      * intros _. by repeat case_match.
    + split; [done|]. intros (? & ? & ? & ? & ?); by simplify_eq.
    + split; [done|]. intros (? & ? & ? & ? & ?); by simplify_eq.
  - split; [done|]. intros (? & ? & ? & _); done.
Qed.

(** A refused acceptInvitation writes nothing. *)
Lemma acceptInvitation_false_unchanged now st iid uid :
  (acceptInvitation now st iid uid).1 = false →
  (acceptInvitation now st iid uid).2 = st.
Proof.
  unfold acceptInvitation. repeat case_match; simpl; done.
Qed.


(** rejectInvitation checks neither status nor expiry: the accepted
    invitation "i2" of [Examples.Store.stale] becomes rejected. *)
Lemma rejectInvitation_overwrites_accepted :
  status <$> INVITATIONS Examples.Store.stale = [pending; accepted]
  ∧ (rejectInvitation Examples.Store.stale "i2").1 = true
  ∧ status <$> INVITATIONS (rejectInvitation Examples.Store.stale "i2").2
    = [pending; rejected].
Proof. by vm_compute. Qed.

(** *** completedAt in updateTask *)



(** *** What the client leaves out *)

(** createInvitation never reads the settings: a caller who sees the
    project but does not own it is refused. *)
Lemma createInvitation_owner_only now newId st pid uid email project :
  getProject st pid uid = Some project → ownerId project ≠ uid →
  createInvitation now newId st pid uid email
  = (Thrown "Only the project owner can invite members", st).
Proof.
  intros Hp Ho. unfold createInvitation. rewrite Hp.
  by rewrite bool_decide_eq_true_2.
Qed.

(** A pending invitation for the pair blocks a new one, whatever its
    [expiresAt]. *)
Lemma createInvitation_pending_blocks now newId st pid uid email project inv :
  getProject st pid uid = Some project → ownerId project = uid →
  inv ∈ INVITATIONS st → inv_projectId inv = pid → inviteeEmail inv = email →
  status inv = pending →
  createInvitation now newId st pid uid email
  = (Thrown "Invitation already sent to this email", st).
Proof.
  intros Hp Ho Hin Hpid Hmail Hst. unfold createInvitation. rewrite Hp.
  rewrite bool_decide_eq_false_2 by (intros ?; done).
  destruct (list_find_elem_of
              (λ i, inv_projectId i = pid ∧ inviteeEmail i = email ∧ status i = pending)
              (INVITATIONS st) inv Hin) as [[k found] ->]; done.
Qed.

(** When the project of a pending, unexpired invitation is not stored,
    acceptInvitation answers [true] after writing the status alone. *)
Lemma acceptInvitation_orphan now st iid uid k inv :
  list_find (λ i, invitationId i = iid) (INVITATIONS st) = Some (k, inv) →
  status inv = pending → (now < expiresAt inv)%Z →
  Forall (λ p, projectId p ≠ inv_projectId inv) (PROJECTS st) →
  acceptInvitation now st iid uid
  = (true, with_invitations st (alter (set_status accepted) k (INVITATIONS st))).
Proof.
  intros Hfind Hst Hexp Hnone. unfold acceptInvitation. rewrite Hfind.
  rewrite bool_decide_eq_false_2 by (intros ?; done).
  rewrite bool_decide_eq_false_2 by lia. simpl.
  by rewrite (proj2 (list_find_None _ _) Hnone).
Qed.

(** removeMember by the owner answers [true] for every target other than
    the owner, member or not. *)
Lemma removeMember_owner_answers_true now st pid target uid project :
  getProject st pid uid = Some project → ownerId project = uid → target ≠ uid →
  (removeMember now st pid target uid).1 = Returned true.
Proof.
  intros Hp Ho Hne. unfold removeMember. rewrite Hp.
  rewrite bool_decide_eq_false_2 by (intros ?; done).
  rewrite bool_decide_eq_false_2 by congruence.
  unfold getProject in Hp.
  by destruct (list_find _ (PROJECTS st)) as [[i q]|].
Qed.

(** C5 (client).  In [Examples.Store.stale] the only invitation of "c@x.com"
    to project "p1" is pending but expired at [NOW] (no live invitation is
    listed for that address); createInvitation by the owner still throws
    "Invitation already sent to this email". *)
Theorem createInvitation_blocked_by_expired_invitation :
  getInvitationsForEmail Examples.NOW Examples.Store.stale "c@x.com" = []
  ∧ getProject Examples.Store.stale "p1" "u1" = Some Examples.Store.launch
  ∧ createInvitation Examples.NOW "i9" Examples.Store.stale "p1" "u1" "c@x.com"
    = (Thrown "Invitation already sent to this email", Examples.Store.stale).
Proof. by vm_compute. Qed.

(** C6 (client).  "u2" is a member of project "p1", whose settings have
    allowMemberInvite = true; createInvitation by "u2" throws "Only the
    project owner can invite members". *)
Theorem createInvitation_refuses_permitted_member :
  "u2" ∈ members Examples.Store.launch
  ∧ allowMemberInvite <$> settings Examples.Store.launch = Some true
  ∧ Spec.canInvite false true true = true
  ∧ createInvitation Examples.NOW "i9" Examples.Store.orphaned "p1" "u2" "e@x.com"
    = (Thrown "Only the project owner can invite members", Examples.Store.orphaned).
Proof. split; [by apply (bool_decide_unpack _)|by vm_compute]. Qed.

(** C9 (client).  "u9" is not a member of project "p1"; removeMember by the
    owner "u1" answers [true], the answer of a successful removal, and
    leaves the member list as it was. *)
Theorem removeMember_non_member_answers_true :
  ("u9" ∉ members Examples.Store.launch)
  ∧ (removeMember Examples.NOW Examples.Store.orphaned "p1" "u9" "u1").1 = Returned true
  ∧ members <$> PROJECTS (removeMember Examples.NOW Examples.Store.orphaned "p1" "u9" "u1").2
    = members <$> PROJECTS Examples.Store.orphaned.
Proof. split; [by apply (bool_decide_unpack _)|by vm_compute]. Qed.

End ClientFacts.

(** ** Properties of the server *)

Module ServerFacts.
Import Js Server.

(** *** Queries *)

Lemma filter_nil_Forall {A} (P : A → Prop) `{!∀ y, Decision (P y)} (l : list A) :
  filter P l = [] ↔ Forall (λ y, ¬ P y) l.
Proof.
  split.
  - intros Hnil. apply Forall_forall. intros y Hy HP.
    by eapply filter_nil_not_elem_of.
  - induction 1 as [|y l Hy _ IH]; [done|].
    by rewrite filter_cons_False.
Qed.

(** A filter on a unique key together with a further condition keeps at most
    the row that has the key. *)
Lemma filter_unique_key {A K} (f : A → K) (Q : A → Prop)
    `{!EqDecision K} `{!∀ y, Decision (Q y)} (l : list A) (x : A) :
  NoDup (f <$> l) → x ∈ l →
  filter (λ y, f y = f x ∧ Q y) l = if decide (Q x) then [x] else [].
Proof.
  induction l as [|a l IH]; intros Hnd Hin; [by apply elem_of_nil in Hin|].
  rewrite fmap_cons in Hnd. apply NoDup_cons in Hnd as [Hfresh Hnd].
  assert (∀ y, y ∈ l → f y ≠ f a) as Hother.
  { intros y Hy Heq. apply Hfresh. rewrite <- Heq. by apply list_elem_of_fmap_2. }
  apply elem_of_cons in Hin as [->|Hin].
  - rewrite filter_cons.
    assert (filter (λ y, f y = f a ∧ Q y) l = []) as ->.
    { apply filter_nil_Forall, Forall_forall. intros y Hy [Heq _]. by eapply Hother. }
    destruct (decide (Q a)); case_decide; tauto.
  - rewrite filter_cons. rewrite decide_False.
    + by apply IH.
    + intros [Heq _]. by eapply (Hother x).
Qed.

Lemma filter_none_key {A K} (f : A → K) (Q : A → Prop)
    `{!EqDecision K} `{!∀ y, Decision (Q y)} (l : list A) (k : K) :
  Forall (λ y, f y ≠ k) l → filter (λ y, f y = k ∧ Q y) l = [].
Proof.
  intros Hall. apply filter_nil_Forall. eapply Forall_impl; [exact Hall|].
  simpl. tauto.
Qed.


(** *** Accepting an invitation *)

Lemma invitationQuery_row now iid db i :
  Schema.invitation_ids_unique db → Schema.invitation_projects_exist db →
  i ∈ invitations db → inv_id i = iid →
  if decide (inv_status i = pending ∧ (now < expires_at i)%Z)
  then ∃ title rest, invitationQuery now iid db = (i, title) :: rest
  else invitationQuery now iid db = [].
Proof.
  intros Huniq Hfk Hin <-. unfold invitationQuery.
  rewrite (filter_unique_key inv_id
             (λ y, inv_status y = pending ∧ (now < expires_at y)%Z)) by done.
  destruct (decide _) as [Hlive|Hdead]; [|done].
  unfold Schema.invitation_projects_exist in Hfk.
  rewrite Forall_forall in Hfk. specialize (Hfk i Hin).
  destruct (filter (λ p, project_id p = inv_project_id i) (projects db))
    as [|p ps] eqn:Hps.
  - apply filter_nil_Forall in Hps. apply Exists_exists in Hfk as (p & Hp & Heq).
    rewrite Forall_forall in Hps. by destruct (Hps p Hp).
  - simpl. rewrite Hps. simpl. eauto.
Qed.

Lemma memberCheckQuery_nil pid uid db :
  memberCheckQuery pid uid db = [] ↔
  {| pm_project_id := pid; pm_user_id := uid |} ∉ project_members db.
Proof.
  unfold memberCheckQuery. rewrite filter_nil_Forall, Forall_forall. split.
  - intros Hall Hin. by apply (Hall _ Hin).
  - intros Hnot [p u] Hin [Hp Hu]; simpl in *; by subst.
Qed.

Lemma accept_known now user iid db i :
  Schema.invitation_ids_unique db → Schema.invitation_projects_exist db →
  i ∈ invitations db → inv_id i = iid →
  let r := (invitations_accept no_fault now user iid db).1 in
  (¬ (inv_status i = pending ∧ (now < expires_at i)%Z) →
   r = fail_with 404 "Invitation not found, expired, or already processed")
  ∧ (inv_status i = pending ∧ (now < expires_at i)%Z →
     invitee_email i ≠ user_email user →
     r = fail_with 403 "This invitation is not for your email address")
  ∧ (inv_status i = pending ∧ (now < expires_at i)%Z →
     invitee_email i = user_email user →
     code r = 200 ∧ success r = true).
Proof.
  intros Huniq Hfk Hin Hid r.
  pose proof (invitationQuery_row now iid db i Huniq Hfk Hin Hid) as Hq.
  subst r. unfold invitations_accept, run_handler, post_accept, bind, db_query,
    select, ret. simpl.
  destruct (decide _) as [Hlive|Hdead].
  - destruct Hq as (title & rest & ->). split_and!; [tauto| |].
    + intros _ Hne. by rewrite bool_decide_eq_true_2.
    + intros _ Heq. rewrite bool_decide_eq_false_2 by tauto.
      destruct (memberCheckQuery _ _ _) as [|m ms] eqn:Hm; simpl.
      * apply memberCheckQuery_nil in Hm.
        unfold finally, try_catch, bind, client_begin, client_query, ext_call,
          insertMember, markAccepted, client_commit, ret; simpl.
        by rewrite bool_decide_eq_false_2.
      * done.
  - rewrite Hq. split_and!; [done|tauto..].
Qed.


Lemma accept_unknown now user iid db :
  Forall (λ i, inv_id i ≠ iid) (invitations db) →
  invitations_accept no_fault now user iid db
  = (fail_with 404 "Invitation not found, expired, or already processed", db).
Proof.
  intros Hall.
  unfold invitations_accept, run_handler, post_accept, bind, db_query, select.
  simpl. unfold invitationQuery.
  by rewrite (filter_none_key inv_id _ _ iid Hall).
Qed.

(** A first query that the database refuses (an id that is no uuid, a lost
    connection) is answered 500, and nothing is written. *)
Lemma accept_refused fault now user iid db :
  fault 0 = true →
  invitations_accept fault now user iid db
  = (fail_with 500 "Failed to accept invitation", db).
Proof.
  intros Hfault.
  unfold invitations_accept, run_handler, post_accept, bind, db_query. simpl.
  by rewrite Hfault.
Qed.

Lemma invitationQuery_head now iid db i title rest :
  invitationQuery now iid db = (i, title) :: rest →
  i ∈ invitations db ∧ inv_id i = iid ∧ inv_status i = pending
  ∧ (now < expires_at i)%Z.
Proof.
  intros Hq.
  assert ((i, title) ∈ invitationQuery now iid db) as Hin
    by (rewrite Hq; apply elem_of_cons; by left).
  unfold invitationQuery in Hin.
  apply list_elem_of_bind in Hin as (j & Hin & Hj).
  apply list_elem_of_bind in Hin as (p & Hin & Hp).
  apply list_elem_of_singleton in Hin. simplify_eq.
  apply list_elem_of_filter in Hj as [(? & ? & ?) ?]. done.
Qed.

Lemma markAccepted_all now iid ivs :
  Forall (λ j, inv_id j = iid → inv_status j = accepted)
    ((λ i, if bool_decide (inv_id i = iid)
           then set_inv_status accepted (Some now) i else i) <$> ivs).
Proof.
  apply Forall_fmap, Forall_forall. intros j _. simpl.
  case_bool_decide; simpl; done.
Qed.

(** X11.  Whatever call fails, the accept route either answers success, and
    then the invitation is accepted and its user is a member, or it answers
    a failure and the committed database is the one it started from. *)
Lemma accept_atomic fault now user iid db :
  let '(r, db') := invitations_accept fault now user iid db in
  (success r = false → db' = db)
  ∧ (success r = true →
     ∃ i, i ∈ invitations db ∧ inv_id i = iid ∧ inv_status i = pending
          ∧ (now < expires_at i)%Z ∧ invitee_email i = user_email user
          ∧ {| pm_project_id := inv_project_id i; pm_user_id := user_id user |}
            ∈ project_members db'
          ∧ Forall (λ j, inv_id j = iid → inv_status j = accepted) (invitations db')).
Proof.
  unfold invitations_accept, run_handler, post_accept, bind, db_query, select, ret.
  simpl. destruct (fault 0); [done|].
  destruct (invitationQuery now iid db) as [|[i title] rest] eqn:Hq; [done|].
  apply invitationQuery_head in Hq as (Hin & Hid & Hst & Hexp).
  case_bool_decide as Hmail; [done|]. simpl.
  destruct (fault 1); [done|].
  destruct (memberCheckQuery _ _ _) as [|m ms] eqn:Hm; simpl.
  - unfold finally, try_catch, bind, client_begin, client_query, ext_call,
      client_rollback, client_commit, insertMember, markAccepted, throw, ret; simpl.
    apply memberCheckQuery_nil in Hm.
    destruct (fault 2); [done|]. simpl.
    destruct (fault 3); simpl; [by destruct (fault 4)|].
    destruct (fault 4); simpl; [by destruct (fault 5)|].
    rewrite bool_decide_eq_false_2 by done. simpl.
    destruct (fault 5); simpl; [by destruct (fault 6)|].
    destruct (fault 6); simpl; [by destruct (fault 7)|].
    split; [done|]. intros _. exists i. split_and!; try done.
    + apply elem_of_app. right. by apply list_elem_of_singleton.
    + apply markAccepted_all.
  - destruct (fault 2); [done|]. simpl. split; [done|]. intros _.
    exists i. split_and!; try done.
    + assert (m ∈ memberCheckQuery (inv_project_id i) (user_id user) db) as Hmem
        by (rewrite Hm; apply elem_of_cons; by left).
      apply list_elem_of_filter in Hmem as [[Hp Hu] Hmem].
      destruct m; simpl in *; by subst.
    + apply markAccepted_all.
Qed.


(** *** Rejecting an invitation *)





(** The reject route does not look at [expires_at]: the pending invitation
    "i2", expired at [NOW], is rejected with answer 200. *)
Lemma reject_ignores_expiry :
  let db := Examples.Db.db true "pending" "u3" in
  Spec.invitation_error Examples.NOW (invitations db) "i2" "c@x.com" = Some Spec.Expired
  ∧ (invitations_reject no_fault Examples.Db.outsider "i2" db).1
    = ok_with 200 "Invitation rejected successfully" NoData
  ∧ inv_status <$> invitations (invitations_reject no_fault Examples.Db.outsider "i2" db).2
    = [pending; rejected; accepted].
Proof. by vm_compute. Qed.

(** *** Creating an invitation *)

Lemma filter_unique_key_only {A K} (f : A → K) `{!EqDecision K} (l : list A) (x : A) :
  NoDup (f <$> l) → x ∈ l → filter (λ y, f y = f x) l = [x].
Proof.
  intros Hnd Hin.
  rewrite (list_filter_iff _ (λ y, f y = f x ∧ True)) by (intros; tauto).
  rewrite (filter_unique_key f (λ _, True)) by done. done.
Qed.

Lemma bind_nil_Forall {A B} (f : A → list B) (l : list A) :
  l ≫= f = [] ↔ Forall (λ x, f x = []) l.
Proof.
  induction l as [|x l IH]; [by split|].
  rewrite bind_cons, Forall_cons, <- IH. split.
  - by intros [? ?]%app_eq_nil.
  - by intros [-> ->].
Qed.

Lemma existingMemberQuery_nil pid email db :
  existingMemberQuery pid email db = [] ↔
  ¬ Exists (λ pm, pm_project_id pm = pid
                  ∧ Exists (λ u, user_id u = pm_user_id pm ∧ user_email u = email)
                           (users db))
           (project_members db).
Proof.
  unfold existingMemberQuery. rewrite bind_nil_Forall, <- Forall_Exists_neg.
  rewrite !Forall_forall. split.
  - intros Hall pm Hpm [Hpid Hex].
    assert (pm ∈ filter (λ pm, pm_project_id pm = pid) (project_members db)) as Hin
      by by apply list_elem_of_filter.
    specialize (Hall pm Hin). apply bind_nil_Forall in Hall.
    apply Exists_exists in Hex as (u & Hu & Hcond).
    rewrite Forall_forall in Hall.
    assert (u ∈ filter (λ u, user_id u = pm_user_id pm ∧ user_email u = email) (users db))
      as Hu' by by apply list_elem_of_filter.
    by specialize (Hall u Hu').
  - intros Hno pm [Hpid Hpm]%list_elem_of_filter.
    apply bind_nil_Forall, Forall_forall. intros u [Hcond Hu]%list_elem_of_filter.
    destruct (Hno pm Hpm). split; [done|]. apply Exists_exists. eauto.
Qed.

Lemma existingInvitationQuery_nil now pid email db :
  existingInvitationQuery now pid email db = [] ↔
  ¬ Exists (λ i, inv_project_id i = pid ∧ invitee_email i = email
                 ∧ inv_status i = pending ∧ (now < expires_at i)%Z)
           (invitations db).
Proof.
  unfold existingInvitationQuery. by rewrite filter_nil_Forall, Forall_Exists_neg.
Qed.

Lemma projectQuery_row pid uid db p :
  Schema.project_ids_unique db → p ∈ projects db → project_id p = pid →
  ∃ is_member rest,
    projectQuery pid uid db = (p, is_member) :: rest
    ∧ (is_member ≠ None ↔
       {| pm_project_id := pid; pm_user_id := uid |} ∈ project_members db).
Proof.
  intros Huniq Hin <-. unfold projectQuery.
  rewrite (filter_unique_key_only project_id) by done. simpl.
  rewrite app_nil_r.
  fold (memberCheckQuery (project_id p) uid db).
  destruct (memberCheckQuery (project_id p) uid db) as [|m ms] eqn:Hm; simpl.
  - eexists _, _. split; [done|]. apply memberCheckQuery_nil in Hm. tauto.
  - eexists _, _. split; [done|]. split; [|done]. intros _.
    assert (m ∈ memberCheckQuery (project_id p) uid db) as Hmem
      by (rewrite Hm; apply elem_of_cons; by left).
    apply list_elem_of_filter in Hmem as [[Hp Hu] Hmem].
    destruct m; simpl in *; by subst.
Qed.

Lemma length_pos_not_nil {A} (l : list A) : 0 < length l ↔ l ≠ [].
Proof. destruct l; simpl; split; (done || lia). Qed.

(** X12.  The invitation route on an existing project, with a well-formed
    body: when no call fails, 403 exactly when the predicate of §4.1 fails;
    else 409 exactly when the address, as [toLowerCase] gives it, belongs to
    a member or has a pending invitation that is not expired; else 201 and
    the invitation is stored, pending, for that address, and expires seven
    days after [Date.now()].  When only the mail step fails, the answer is
    500 and the same invitation is stored all the same. *)
Lemma invite_outcome now toLowerCase dateNow newId user email pid db p :
  Schema.project_ids_unique db → p ∈ projects db → project_id p = pid →
  let permitted :=
    Spec.canInvite
      (bool_decide (owner_id p = user_id user))
      (bool_decide ({| pm_project_id := pid; pm_user_id := user_id user |}
                    ∈ project_members db))
      (from_option allowMemberInvite false (project_settings p)) in
  let is_member :=
    Exists (λ pm, pm_project_id pm = pid
                  ∧ Exists (λ u, user_id u = pm_user_id pm
                                 ∧ user_email u = toLowerCase email) (users db))
           (project_members db) in
  let invited :=
    Exists (λ i, inv_project_id i = pid ∧ invitee_email i = toLowerCase email
                 ∧ inv_status i = pending ∧ (now < expires_at i)%Z)
           (invitations db) in
  let run := λ fault,
    invitations_post fault now toLowerCase dateNow true newId user email pid db in
  let '(r, db') := run no_fault in
  (permitted = false →
   r = fail_with 403 "You do not have permission to invite members" ∧ db' = db)
  ∧ (permitted = true → is_member ∨ invited → code r = 409 ∧ db' = db)
  ∧ (permitted = true → ¬ (is_member ∨ invited) →
     code r = 201
     ∧ ∃ row, invitations db' = invitations db ++ [row]
              ∧ inv_project_id row = pid
              ∧ invitee_email row = toLowerCase email
              ∧ inv_status row = pending
              ∧ expires_at row = (dateNow + 7 * 24 * 60 * 60 * 1000)%Z
              ∧ (run mail_fails).1 = fail_with 500 "Failed to send invitation"
              ∧ invitations (run mail_fails).2 = invitations db ++ [row]).
Proof.
  intros Huniq Hin Hid permitted is_member invited run.
  destruct (projectQuery_row pid (user_id user) db p Huniq Hin Hid)
    as (m & rest & Hq & Hm).
  unfold run, invitations_post, run_handler, post_invitation, bind, db_query,
    ext_call, select, ret.
  simpl. rewrite Hq.
  assert (bool_decide (m ≠ None)
          = bool_decide ({| pm_project_id := pid; pm_user_id := user_id user |}
                         ∈ project_members db)) as ->
    by by apply bool_decide_ext.
  assert (match project_settings p with Some s => allowMemberInvite s | None => false end
          = from_option allowMemberInvite false (project_settings p)) as ->
    by by destruct (project_settings p).
  change (bool_decide (owner_id p = user_id user) || _) with permitted.
  destruct permitted; simpl.
  - pose proof (existingMemberQuery_nil pid (toLowerCase email) db) as Hmem.
    pose proof (existingInvitationQuery_nil now pid (toLowerCase email) db) as Hinv.
    fold is_member in Hmem. fold invited in Hinv.
    destruct (existingMemberQuery pid (toLowerCase email) db) as [|x xs]; simpl.
    + destruct (existingInvitationQuery now pid (toLowerCase email) db) as [|y ys]; simpl.
      * split_and!; [done| |].
        -- intros _ [?|?]; [by destruct (proj1 Hmem eq_refl)|by destruct (proj1 Hinv eq_refl)].
        -- intros _ _. split; [done|]. eexists. split_and!; done.
      * assert (invited) by (apply dec_stable; intros Hn; by pose proof (proj2 Hinv Hn)).
        split_and!; [done|done|]. intros _ Hno. destruct Hno. by right.
    + assert (is_member) by (apply dec_stable; intros Hn; by pose proof (proj2 Hmem Hn)).
      split_and!; [done|done|]. intros _ Hno. destruct Hno. by left.
  - split_and!; done.
Qed.

(** An unknown project id gives 404 before any permission test. *)
Lemma invite_unknown_project now toLowerCase dateNow newId user email pid db :
  Forall (λ p, project_id p ≠ pid) (projects db) →
  invitations_post no_fault now toLowerCase dateNow true newId user email pid db
  = (fail_with 404 "Project not found", db).
Proof.
  intros Hall.
  unfold invitations_post, run_handler, post_invitation, bind, db_query, select, ret.
  simpl. unfold projectQuery.
  assert (filter (λ p, project_id p = pid) (projects db) = []) as ->
    by by apply filter_nil_Forall.
  done.
Qed.

(** *** Reading a project and its tasks *)

Lemma Forall_left_join {B} (P : option B → Prop) (l : list B) :
  Forall P (left_join l) ↔ (l = [] → P None) ∧ Forall (λ x, P (Some x)) l.
Proof.
  destruct l as [|x l]; simpl.
  - rewrite Forall_singleton. split; [intros ?; split; [done|constructor]|intros [H _]; by apply H].
  - change (Forall P (Some <$> x :: l) ↔ (x :: l = [] → P None) ∧ Forall (P ∘ Some) (x :: l)).
    rewrite Forall_fmap. split; [by intros ?|by intros [_ ?]].
Qed.

(** The rows of the project that the caller neither owns nor is a member of
    do not pass the access test. *)
Lemma no_access_rows uid (p : ProjectRow) db :
  owner_id p ≠ uid →
  {| pm_project_id := project_id p; pm_user_id := uid |} ∉ project_members db →
  Forall (λ pm : option MemberRow, ¬ (owner_id p = uid ∨ pm_user_id <$> pm = Some uid))
         (left_join (filter (λ pm, pm_project_id pm = project_id p) (project_members db))).
Proof.
  intros Ho Hm. apply Forall_left_join. split.
  - intros _ [?|?]; done.
  - apply Forall_forall. intros [pp pu] [Hp Hin]%list_elem_of_filter [?|Heq]; [done|].
    simpl in *. by simplify_eq.
Qed.

(** The task list of a project that the caller neither owns nor is a member
    of, and of a project that does not exist, is answered alike: 403. *)
Lemma tasks_of_project_denied user pid db :
  Forall (λ p, project_id p = pid →
               owner_id p ≠ user_id user
               ∧ {| pm_project_id := pid; pm_user_id := user_id user |}
                 ∉ project_members db) (projects db) →
  tasks_of_project no_fault user pid db
  = (fail_with 403 "Access denied to project", db).
Proof.
  intros Hall.
  unfold tasks_of_project, run_handler, get_project_tasks, bind, db_query, select, ret.
  simpl.
  assert (accessQuery pid (user_id user) db = []) as ->; [|done].
  unfold accessQuery. apply bind_nil_Forall, Forall_forall.
  intros p [Hpid Hin]%list_elem_of_filter.
  rewrite Forall_forall in Hall. destruct (Hall p Hin Hpid) as [Ho Hm].
  apply filter_nil_Forall. subst pid. by apply no_access_rows.
Qed.

(** The project itself is answered 404 in both cases. *)
Lemma projects_get_denied user pid db :
  Forall (λ p, project_id p = pid →
               owner_id p ≠ user_id user
               ∧ {| pm_project_id := pid; pm_user_id := user_id user |}
                 ∉ project_members db) (projects db) →
  projects_get no_fault user pid db
  = (fail_with 404 "Project not found or access denied", db).
Proof.
  intros Hall.
  unfold projects_get, run_handler, get_project, bind, db_query, select, ret.
  simpl.
  assert (projectByIdQuery pid (user_id user) db = []) as ->; [|done].
  unfold projectByIdQuery. apply bind_nil_Forall, Forall_forall.
  intros p [Hpid Hin]%list_elem_of_filter.
  rewrite Forall_forall in Hall. destruct (Hall p Hin Hpid) as [Ho Hm].
  apply bind_nil_Forall, Forall_forall. intros u _.
  rewrite bool_decide_eq_false_2; [done|].
  subst pid. apply Forall_Exists_neg. by apply no_access_rows.
Qed.

(** C7 (server).  "u3" is neither owner nor member of project "p1".  The
    task list of "p1" is refused with 403 "Access denied to project", a
    forbidden answer and not a not-found one; the project route answers the
    same caller 404. *)
Theorem tasks_of_project_answers_forbidden :
  let db := Examples.Db.db true "pending" "u2" in
  owner_id (Examples.Db.launch true) ≠ user_id Examples.Db.outsider
  ∧ ({| pm_project_id := "p1"; pm_user_id := "u3" |} ∉ project_members db)
  ∧ (tasks_of_project no_fault Examples.Db.outsider "p1" db).1
    = fail_with 403 "Access denied to project"
  ∧ (projects_get no_fault Examples.Db.outsider "p1" db).1
    = fail_with 404 "Project not found or access denied".
Proof.
  split_and!; [done|by apply (bool_decide_unpack _)|by vm_compute..].
Qed.

(** *** Removing a member *)

Lemma filter_all {A} (P : A → Prop) `{!∀ y, Decision (P y)} (l : list A) :
  Forall P l → filter P l = l.
Proof.
  induction 1 as [|x l Hx _ IH]; [done|].
  by rewrite filter_cons_True, IH.
Qed.

(** X13.  The member route without a failing call.  Only the owner of the
    project gets past the first test.  The owner's own id, sent in the
    spelling the database stores, is refused with 400.  Any other text is
    bound to the DELETE and read as a uuid: a text that denotes none is
    answered 500; a uuid without a membership is answered 404; each of these
    writes nothing; a uuid with a membership is answered 200 and exactly
    that membership is deleted, the owner's own membership included when
    the owner's id arrives in another spelling. *)
Lemma members_delete_outcome uuid_in user pid userId db :
  let is_owner :=
    Exists (λ p, project_id p = pid ∧ owner_id p = user_id user) (projects db) in
  let '(r, db') := members_delete no_fault uuid_in user pid userId db in
  ((¬ is_owner) →
   r = fail_with 403 "Only project owner can remove members" ∧ db' = db)
  ∧ (is_owner → userId = user_id user →
     r = fail_with 400 "Cannot remove project owner" ∧ db' = db)
  ∧ (is_owner → userId ≠ user_id user → uuid_in userId = None →
     r = fail_with 500 "Failed to remove member" ∧ db' = db)
  ∧ (∀ target, is_owner → userId ≠ user_id user → uuid_in userId = Some target →
       let row := {| pm_project_id := pid; pm_user_id := target |} in
       ((row ∉ project_members db) →
        r = fail_with 404 "Member not found in project" ∧ db' = db)
       ∧ (row ∈ project_members db →
          r = ok_with 200 "Member removed successfully" NoData
          ∧ project_members db' = filter (λ pm, pm ≠ row) (project_members db)
          ∧ users db' = users db ∧ projects db' = projects db
          ∧ invitations db' = invitations db ∧ tasks db' = tasks db)).
Proof.
  intros is_owner.
  unfold members_delete, run_handler, delete_member, bind, db_query, select,
    removeQuery, ret. simpl.
  assert (ownerCheckQuery pid (user_id user) db = [] ↔ ¬ is_owner) as Hown.
  { unfold ownerCheckQuery. by rewrite filter_nil_Forall, Forall_Exists_neg. }
  destruct (ownerCheckQuery pid (user_id user) db) as [|o os] eqn:Ho; simpl.
  { split_and!; [done|intros Hi; by destruct (proj1 Hown eq_refl)..|].
    intros target Hi. by destruct (proj1 Hown eq_refl). }
  assert (is_owner) as Hi by (apply dec_stable; intros Hn; by pose proof (proj2 Hown Hn)).
  case_bool_decide as Hself; simpl.
  { split_and!; [done|done|done|]. by intros target _ ?. }
  destruct (uuid_in userId) as [target|] eqn:Hread; simpl.
  2:{ split_and!; [done|done|done|]. by intros target _ _ ?. }
  set (row := {| pm_project_id := pid; pm_user_id := target |}).
  assert (∀ pm, (pm_project_id pm = pid ∧ pm_user_id pm = target) ↔ pm = row) as Hrow.
  { intros [pp pu]. unfold row. simpl. split; [by intros [-> ->]|by intros [= -> ->]]. }
  assert (filter (λ pm, ¬ (pm_project_id pm = pid ∧ pm_user_id pm = target))
                 (project_members db)
          = filter (λ pm, pm ≠ row) (project_members db)) as Hfilter.
  { apply list_filter_iff. intros pm. by rewrite Hrow. }
  assert (filter (λ pm, pm_project_id pm = pid ∧ pm_user_id pm = target)
                 (project_members db) = [] ↔ row ∉ project_members db) as Hhit.
  { rewrite filter_nil_Forall, Forall_forall. split.
    - intros Hall Hin. apply (Hall row Hin). by apply Hrow.
    - intros Hnot pm Hin Hpm. apply Hrow in Hpm. by subst. }
  destruct (filter (λ pm, pm_project_id pm = pid ∧ pm_user_id pm = target)
                   (project_members db)) as [|m ms] eqn:Hm; simpl.
  - pose proof (proj1 Hhit eq_refl) as Hnot.
    split_and!; [done|done|done|]. intros t _ _ [= <-]. fold row. split; [|done].
    intros _. split; [done|]. rewrite Hfilter.
    rewrite filter_all; [by destruct db|].
    apply Forall_forall. intros pm Hin ->. done.
  - assert (row ∈ project_members db) as Hin
      by (apply dec_stable; intros Hn; by pose proof (proj2 Hhit Hn)).
    split_and!; [done|done|done|]. intros t _ _ [= <-]. fold row. split; [done|].
    intros _. by rewrite Hfilter.
Qed.

(** *** Updating a task *)

(** The server's test admits everyone the predicate of §4.1 admits. *)
Lemma canEdit_admits_spec task project is_member user :
  Spec.canEditTask
    (bool_decide (owner_id project = user_id user))
    (bool_decide (js_of_sql (task !! "assignee_id") = JStr (user_id user)))
    (from_option allowMemberTaskEdit false (project_settings project)) = true →
  canEdit task project is_member user = true.
Proof.
  unfold Spec.canEditTask, canEdit.
  destruct (bool_decide (owner_id project = _)); [done|].
  destruct (bool_decide (js_of_sql _ = _)); done.
Qed.

Lemma build_step_ok body b f :
  f ∈ allowedFields → build_ok b → build_ok (build_step body b f).
Proof.
  intros Hf [Hcount Hitems]. unfold build_step.
  destruct (_ || _); [|done].
  split; simpl.
  - rewrite length_app. simpl. lia.
  - apply Forall_app. split.
    + eapply Forall_impl; [exact Hitems|]. intros [c n|c]; [|done].
      rewrite length_app. simpl. intros [? ?]. split; [done|lia].
    + apply Forall_singleton. split; [done|]. rewrite length_app, Hcount. simpl. lia.
Qed.

Lemma build_fold_ok body fs b :
  Forall (λ f, f ∈ allowedFields) fs → build_ok b →
  build_ok (foldl (build_step body) b fs).
Proof.
  intros Hfs. revert b. induction Hfs as [|f fs Hf _ IH]; intros b Hb; [done|].
  simpl. apply IH. by apply build_step_ok.
Qed.

Lemma build_update_ok body : build_ok (build_update body).
Proof.
  apply build_fold_ok.
  - by apply Forall_forall.
  - split; [done|constructor].
Qed.

(** The loop reads the body only at the allowed names, in either spelling. *)
Lemma build_update_ext body body' :
  Forall (λ f, prop body f = prop body' f
               ∧ prop body (camelCase f) = prop body' (camelCase f)) allowedFields →
  build_update body = build_update body'.
Proof.
  unfold build_update. generalize allowedFields.
  generalize {| updateFields := []; values := []; paramCount := 1 |}.
  intros b fs Hfs. revert b.
  induction Hfs as [|f fs [Hs Hc] _ IH]; intros b; [done|].
  simpl. rewrite <- IH. f_equal. unfold build_step. by rewrite Hs, Hc.
Qed.

Lemma apply_set_None now vals items :
  foldl (apply_set now vals) None items = None.
Proof. by induction items. Qed.

(** A run of SET items leaves alone every column that no item names. *)
Lemma apply_sets_frame now vals items row row' c :
  foldl (apply_set now vals) (Some row) items = Some row' →
  c ∉ item_column <$> items → row' !! c = row !! c.
Proof.
  revert row. induction items as [|item items IH]; intros row Hrun Hc.
  - by simplify_eq/=.
  - rewrite fmap_cons, not_elem_of_cons in Hc. destruct Hc as [Hne Hc].
    simpl in Hrun. destruct item as [col n|col]; simpl in *.
    + destruct (vals !! (n - 1)) as [v|]; simpl in Hrun.
      * rewrite (IH _ Hrun Hc). by rewrite lookup_insert_ne.
      * by rewrite apply_set_None in Hrun.
    + rewrite (IH _ Hrun Hc). by rewrite lookup_insert_ne.
Qed.



Lemma NoDup_fmap_eq {A K} (f : A → K) (l : list A) (x y : A) :
  NoDup (f <$> l) → x ∈ l → y ∈ l → f x = f y → x = y.
Proof.
  induction l as [|a l IH]; intros Hnd Hx Hy Hf; [by apply elem_of_nil in Hx|].
  rewrite fmap_cons in Hnd. apply NoDup_cons in Hnd as [Hfresh Hnd].
  apply elem_of_cons in Hx as [->|Hx]; apply elem_of_cons in Hy as [->|Hy].
  - done.
  - destruct Hfresh. rewrite Hf. by apply list_elem_of_fmap_2.
  - destruct Hfresh. rewrite <- Hf. by apply list_elem_of_fmap_2.
  - by apply IH.
Qed.


(** What the UPDATE does to each row of [tasks], and that it does nothing to
    the other tables. *)
Lemma updateQuery_rows now items vals idParam db rows db' :
  updateQuery now items vals idParam db = Some (rows, db') →
  ∃ idv, vals !! (idParam - 1) = Some idv
    ∧ users db' = users db ∧ projects db' = projects db
    ∧ project_members db' = project_members db
    ∧ invitations db' = invitations db
    ∧ ∀ k row, tasks db !! k = Some row →
        ∃ row', tasks db' !! k = Some row'
          ∧ if decide (row !! "id" = Some idv)
            then foldl (apply_set now vals) (Some row) (items ++ [SetNow "updated_at"])
                 = Some row'
            else row' = row.
Proof.
  unfold updateQuery. destruct (vals !! (idParam - 1)) as [idv|]; simpl; [|done].
  destruct (mapM _ (tasks db)) as [new|] eqn:Hmap; simpl; [|done].
  intros [= <- <-]. exists idv. split_and!; try done.
  intros k row Hk. apply mapM_Some_1 in Hmap.
  destruct (Forall2_lookup_l _ _ _ _ _ Hmap Hk) as (row' & Hk' & Hupd).
  exists row'. split; [done|].
  simpl in Hupd. destruct (decide _).
  - by rewrite bool_decide_eq_true_2 in Hupd.
  - rewrite bool_decide_eq_false_2 in Hupd by done. by simplify_eq.
Qed.

(** The shape of every run of the update route: either nothing is written,
    or the caller passed the permission test on the first row of the task
    query and the UPDATE assembled from the body ran. *)
Lemma tasks_put_cases fault now user taskId body db :
  let '(r, db') := tasks_put fault now user taskId body db in
  (success r = false ∧ db' = db)
  ∨ ∃ task project m rest rows,
      taskQuery taskId (user_id user) db = (task, project, m) :: rest
      ∧ canEdit task project m user = true
      ∧ updateQuery now
          (if bool_decide (prop body "status" = JStr "completed")
              && bool_decide (js_of_sql (task !! "status") ≠ JStr "completed")
           then updateFields (build_update body) ++ [SetNow "completed_at"]
           else updateFields (build_update body))
          (values (build_update body) ++ [SqlOf (JStr taskId)])
          (paramCount (build_update body)) db = Some (rows, db')
      ∧ r = ok_with 200 "Task updated successfully" (TaskData (head rows)).
Proof.
  unfold tasks_put, run_handler, put_task, bind, db_query, select, ret. simpl.
  destruct (fault 0); [by left|].
  destruct (taskQuery taskId (user_id user) db) as [|[[task project] m] rest] eqn:Hq;
    [by left|].
  destruct (canEdit task project m user) eqn:Hedit; simpl; [|by left].
  case_bool_decide as Hlen; simpl; [by left|].
  destruct (fault 1); [by left|].
  destruct (updateQuery _ _ _ _ _) as [[rows db']|] eqn:Hupd; [|by left].
  right. by exists task, project, m, rest, rows.
Qed.


Lemma build_update_columns body c :
  c ∉ allowedFields → c ∉ item_column <$> updateFields (build_update body).
Proof.
  intros Hc Hin. apply list_elem_of_fmap in Hin as (item & -> & Hin).
  destruct (build_update_ok body) as [_ Hitems].
  rewrite Forall_forall in Hitems. specialize (Hitems item Hin).
  destruct item; simpl in *; tauto.
Qed.



(** C10.  Whatever the request body holds and whichever call fails, the
    update route changes, in the [tasks] table, only columns of the
    allowlist, [completed_at] and [updated_at]: every other column of every
    row keeps its value, and the other tables are untouched.  Moreover the
    route reads the body only at the allowed names (in snake or camel
    case): bodies that agree there have the same effect, so anything else
    the caller supplies, a [completed_at] included, is ignored. *)
Theorem tasks_put_frame fault now user taskId body db k row c :
  tasks db !! k = Some row →
  c ∉ allowedFields → c ≠ "completed_at" → c ≠ "updated_at" →
  let db' := (tasks_put fault now user taskId body db).2 in
  (∃ row', tasks db' !! k = Some row' ∧ row' !! c = row !! c)
  ∧ users db' = users db ∧ projects db' = projects db
  ∧ project_members db' = project_members db
  ∧ invitations db' = invitations db
  ∧ ∀ body',
      Forall (λ f, prop body f = prop body' f
                   ∧ prop body (camelCase f) = prop body' (camelCase f))
             allowedFields →
      tasks_put fault now user taskId body' db = tasks_put fault now user taskId body db.
Proof.
  intros Hk Hc Hc1 Hc2 db'.
  assert (∀ body',
      Forall (λ f, prop body f = prop body' f
                   ∧ prop body (camelCase f) = prop body' (camelCase f))
             allowedFields →
      tasks_put fault now user taskId body' db = tasks_put fault now user taskId body db)
    as Hext.
  { intros body' Hsame. unfold tasks_put, put_task.
    rewrite (build_update_ext body body' Hsame).
    assert (prop body "status" = prop body' "status") as ->; [|done].
    rewrite Forall_forall in Hsame. apply (Hsame "status").
    by apply (bool_decide_unpack _). }
  subst db'. pose proof (tasks_put_cases fault now user taskId body db) as Hcases.
  destruct (tasks_put fault now user taskId body db) as [r d]. simpl.
  destruct Hcases as [[_ ->]|(task & project & m & rest & rows & _ & _ & Hupd & _)].
  { split_and!; try done. by eauto. }
  apply updateQuery_rows in Hupd as (idv & _ & ? & ? & ? & ? & Hrows).
  split_and!; try done.
  destruct (Hrows k row Hk) as (row' & Hk' & Hrow'). exists row'. split; [done|].
  destruct (decide _); [|by subst].
  eapply apply_sets_frame; [exact Hrow'|].
  rewrite fmap_app, elem_of_app. simpl. intros [Hin|Hin%list_elem_of_singleton]; [|done].
  destruct (_ && _).
  - rewrite fmap_app, elem_of_app in Hin. simpl in Hin.
    destruct Hin as [Hin|Hin%list_elem_of_singleton]; [|done].
    by apply (build_update_columns body c).
  - by apply (build_update_columns body c).
Qed.

(** *** completed_at *)







(** C2 (server).  With the body [{description: "edited"}] the update route
    answers 200 and stores the edit for "u2" in two situations that the
    predicate of §4.1 excludes: "u2" is a member but not the assignee
    (the task is assigned to "u3") while allowMemberTaskEdit is true, and
    "u2" is the assignee while allowMemberTaskEdit is false. *)
Theorem tasks_put_admits_beyond_spec :
  let body : gmap string JsVal := {[ "description" := JStr "edited" ]} in
  let db1 := Examples.Db.db true "pending" "u3" in
  let db2 := Examples.Db.db false "pending" "u2" in
  let run := tasks_put no_fault Examples.NOW Examples.Db.member "t1" body in
  Spec.canEditTask false false true = false
  ∧ code (run db1).1 = 200
  ∧ ((λ t : gmap string SqlVal, t !! "description") <$> tasks (run db1).2
     = [Some (SqlOf (JStr "edited"))])
  ∧ Spec.canEditTask false true false = false
  ∧ code (run db2).1 = 200
  ∧ ((λ t : gmap string SqlVal, t !! "description") <$> tasks (run db2).2
     = [Some (SqlOf (JStr "edited"))]).
Proof. by vm_compute. Qed.

(** A stranger to the project who is not the assignee is still refused. *)
Lemma tasks_put_refuses_outsider :
  (tasks_put no_fault Examples.NOW Examples.Db.outsider "t1"
     {[ "description" := JStr "edited" ]} (Examples.Db.db true "pending" "u2")).1
  = fail_with 403 "You do not have permission to edit this task".
Proof. by vm_compute. Qed.

End ServerFacts.

(** ** Both implementations together *)

Module Claims.
Import Js.

(** *** Accepting (C3) *)

(** C3, as stated, fails.  In the example database "i0" does not exist,
    "i2" is pending but expired and "i3" was accepted; for the invitee
    "c@x.com" the specification names three different failures, and the
    accept route gives one and the same answer to all three, so no reading
    of the answer tells the kinds apart. *)
Lemma accept_kinds_not_reported :
  let db := Examples.Db.db true "pending" "u2" in
  ¬ ∃ kind : Server.Response → option Spec.InvitationError,
      ∀ iid, iid ∈ ["i0"; "i2"; "i3"] →
        kind (Server.invitations_accept Server.no_fault Examples.NOW
                Examples.Db.outsider iid db).1
        = Spec.invitation_error Examples.NOW (Server.invitations db) iid "c@x.com".
Proof.
  intros db [kind Hkind].
  pose proof (Hkind "i0" ltac:(by apply (bool_decide_unpack _))) as H0.
  pose proof (Hkind "i2" ltac:(by apply (bool_decide_unpack _))) as H2.
  vm_compute in H0, H2. congruence.
Qed.

(** C3, amended.  On the server, with no call failing, ids unique and the
    projects of invitations present, accept answers one 404 "not found,
    expired, or already processed" when no invitation has the id, when its
    status is not pending, or when now ≥ expiresAt; it answers 403 when the
    invitation is live and the e-mail addresses differ; and it succeeds
    exactly in the remaining case.  A first query that fails, as it does for
    an id that is no uuid, is answered 500 and writes nothing.  On the
    client acceptInvitation answers [false] whenever no invitation has the
    id, its status is not pending, or now ≥ expiresAt. *)
Theorem accept_outcomes fault now user iid db st uid :
  Schema.invitation_ids_unique db → Schema.invitation_projects_exist db →
  let r := (Server.invitations_accept Server.no_fault now user iid db).1 in
  let live := λ i, Server.inv_status i = Server.pending
                   ∧ (now < Server.expires_at i)%Z in
  (Forall (λ i, Server.inv_id i ≠ iid) (Server.invitations db) →
   r = Server.fail_with 404 "Invitation not found, expired, or already processed")
  ∧ (∀ i, i ∈ Server.invitations db → Server.inv_id i = iid →
       (¬ live i →
        r = Server.fail_with 404 "Invitation not found, expired, or already processed")
       ∧ (live i → Server.invitee_email i ≠ Server.user_email user →
          r = Server.fail_with 403 "This invitation is not for your email address")
       ∧ (live i → Server.invitee_email i = Server.user_email user →
          Server.code r = 200 ∧ Server.success r = true))
  ∧ (fault 0%nat = true →
     Server.invitations_accept fault now user iid db
     = (Server.fail_with 500 "Failed to accept invitation", db))
  ∧ ((¬ ∃ k inv, list_find (λ inv, Client.invitationId inv = iid) (Client.INVITATIONS st)
                 = Some (k, inv)
                 ∧ Client.status inv = Client.pending
                 ∧ (now < Client.expiresAt inv)%Z) →
     (Client.acceptInvitation now st iid uid).1 = false).
Proof.
  intros Huniq Hfk r live. split_and!.
  - intros Hall. subst r. by rewrite ServerFacts.accept_unknown.
  - intros i Hin Hid. by apply ServerFacts.accept_known.
  - apply ServerFacts.accept_refused.
  - intros Hnone. apply not_true_is_false. intros Htrue. apply Hnone.
    by apply ClientFacts.acceptInvitation_true_iff in Htrue.
Qed.

(** [accept_outcomes] on the example database: the invitee accepts the
    pending invitation "i1". *)
Lemma accept_outcomes_witness :
  let db := Examples.Db.db true "pending" "u2" in
  Schema.invitation_ids_unique db ∧ Schema.invitation_projects_exist db
  ∧ Server.code (Server.invitations_accept Server.no_fault Examples.NOW
                   Examples.Db.outsider "i1" db).1 = 200.
Proof.
  intros db.
  assert (Schema.invitation_ids_unique db) as H1
    by (apply (bool_decide_unpack _); vm_compute; exact I).
  assert (Schema.invitation_projects_exist db) as H2
    by (apply (bool_decide_unpack _); vm_compute; exact I).
  split; [exact H1|]. split; [exact H2|].
  destruct (accept_outcomes Server.no_fault Examples.NOW Examples.Db.outsider "i1" db
              Examples.Store.stale "u3" H1 H2) as (_ & Hrow & _).
  destruct (Hrow (Examples.Db.invite "i1" "c@x.com" Server.pending 5000))
    as (_ & _ & Hok).
  - constructor.
  - reflexivity.
  - apply Hok; [split; [reflexivity|reflexivity]|reflexivity].
Defined.

(** *** Rejecting (C4) *)




(** *** completedAt (C8) *)




(** *** The allowlist of the update route (C10) *)

(** [ServerFacts.tasks_put_frame] on the example database: the owner sends
    [tags], [completed_at] and [project_id] along with a new status, and the
    stored [tags] stay. *)
Lemma tasks_put_frame_witness :
  let db := Examples.Db.db true "pending" "u2" in
  let body : gmap string JsVal :=
    {[ "status" := JStr "completed"; "tags" := JObj "[1]";
       "completed_at" := JDate 7; "project_id" := JStr "p9" ]} in
  Server.tasks db !! 0%nat = Some (Examples.Db.task "pending" "u2")
  ∧ ("tags" ∉ Server.allowedFields)
  ∧ ∃ row', Server.tasks (Server.tasks_put Server.no_fault Examples.NOW
                            Examples.Db.owner "t1" body db).2 !! 0%nat = Some row'
            ∧ row' !! "tags" = Some (Server.SqlOf (JObj "[]")).
Proof.
  intros db body.
  assert ("tags" ∉ Server.allowedFields) as Hc
    by (apply (bool_decide_unpack _); vm_compute; exact I).
  split; [reflexivity|]. split; [exact Hc|].
  destruct (ServerFacts.tasks_put_frame Server.no_fault Examples.NOW Examples.Db.owner
              "t1" body db 0%nat (Examples.Db.task "pending" "u2") "tags" eq_refl Hc)
    as ((row' & Hrow & Htags) & _).
  - intros Heq. discriminate Heq.
  - intros Heq. discriminate Heq.
  - exists row'. split; [exact Hrow|]. rewrite Htags. reflexivity.
Defined.

End Claims.

(** ** More of the client *)

Module ClientMoreFacts.
Import Js Client ClientMore.

(** getProjectOf reads the projects only. *)
Lemma getProjectOf_projects st st' v uid :
  PROJECTS st' = PROJECTS st → getProjectOf st' v uid = getProjectOf st v uid.
Proof.
  intros Heq. unfold getProjectOf, getProject. by rewrite Heq.
Qed.

(** *** Projects *)

(** Appending a row that fails the test does not change what is found. *)
Lemma list_find_snoc_other {A} (P : A → Prop) `{!∀ x, Decision (P x)} (l : list A) x :
  ¬ P x → list_find P (l ++ [x]) = list_find P l.
Proof.
  intros Hx. destruct (list_find P l) as [[i y]|] eqn:Hl.
  - by apply list_find_app_l.
  - rewrite list_find_app_r by done. simpl. by rewrite decide_False.
Qed.

Lemma list_find_snoc_first {A} (P : A → Prop) `{!∀ x, Decision (P x)} (l : list A) x :
  Forall (λ y, ¬ P y) l → P x → list_find P (l ++ [x]) = Some (length l, x).
Proof.
  intros Hl Hx. rewrite list_find_app_r by by apply list_find_None.
  simpl. by rewrite decide_True.
Qed.

(** X1.  The project that createProject stores under a fresh id is returned
    by getProject to its owner and to each listed member, and to nobody
    else; what getProject answers for every other id is unchanged. *)
Theorem createProject_getProject now newId st project uid :
  Forall (λ p, projectId p ≠ newId) (PROJECTS st) →
  let created := (createProject now newId st project).1 in
  let st' := (createProject now newId st project).2 in
  getProject st' newId uid
  = (if decide (np_ownerId project = uid ∨ uid ∈ np_members project)
     then Some created else None)
  ∧ (∀ pid, pid ≠ newId → getProject st' pid uid = getProject st pid uid)
  ∧ settings created = Some (default DEFAULT_SETTINGS (np_settings project)).
Proof.
  intros Hfresh created st'. split_and!.
  - unfold getProject. subst st'. simpl.
    rewrite (list_find_snoc_first (λ p, projectId p = newId)); [|done|done].
    fold created. simpl.
    destruct (decide (np_ownerId project = uid)) as [Ho|Ho];
      destruct (decide (uid ∈ np_members project)) as [Hm|Hm];
      rewrite ?(bool_decide_eq_true_2 _ Hm), ?(bool_decide_eq_false_2 _ Hm);
      [rewrite (bool_decide_eq_false_2 (np_ownerId project ≠ uid)) by tauto..
      |rewrite (bool_decide_eq_true_2 (np_ownerId project ≠ uid)) by tauto
      |rewrite (bool_decide_eq_true_2 (np_ownerId project ≠ uid)) by tauto];
      simpl; destruct (decide _); tauto.
  - intros pid Hpid. unfold getProject. subst st'. simpl.
    rewrite (list_find_snoc_other (λ p, projectId p = pid)); [done|].
    simpl. congruence.
  - done.
Qed.

Lemma createProject_getProject_witness :
  getProject (createProject 5 "p2" Examples.Store.orphaned
                {| np_title := "Site"; np_description := ""; np_ownerId := "u4";
                   np_members := ["u4"]; np_settings := None |}).2 "p2" "u1"
  = None.
Proof.
  assert (Forall (λ p, projectId p ≠ "p2") (PROJECTS Examples.Store.orphaned)) as Hfresh.
  { constructor; [|constructor]. intros Heq. discriminate Heq. }
  destruct (createProject_getProject 5 "p2" Examples.Store.orphaned
              {| np_title := "Site"; np_description := ""; np_ownerId := "u4";
                 np_members := ["u4"]; np_settings := None |} "u1" Hfresh) as [H _].
  etransitivity; [exact H|]. vm_compute. reflexivity.
Defined.

(** X2.  When project ids are unique, getProjectsByUser lists exactly the
    projects that getProject returns to the user. *)
Theorem getProjectsByUser_getProject st uid p :
  NoDup (projectId <$> PROJECTS st) →
  p ∈ getProjectsByUser st uid ↔ getProject st (projectId p) uid = Some p.
Proof.
  intros Huniq. unfold getProjectsByUser. rewrite list_elem_of_filter. split.
  - intros [Hvis Hin]. unfold getProject.
    destruct (list_find_elem_of (λ q, projectId q = projectId p) (PROJECTS st) p Hin eq_refl)
      as [[i q] Hfind].
    rewrite Hfind. apply list_find_Some in Hfind as (Hi & Hid & _).
    assert (q = p) as ->.
    { eapply (ServerFacts.NoDup_fmap_eq projectId); [exact Huniq| |done|done].
      by eapply list_elem_of_lookup_2. }
    destruct Hvis as [Ho|Hm].
    + by rewrite (bool_decide_eq_false_2 (ownerId p ≠ uid)) by tauto.
    + rewrite (bool_decide_eq_true_2 _ Hm). simpl. by rewrite andb_false_r.
  - intros Hget. apply ClientFacts.getProject_Some in Hget. tauto.
Qed.

Lemma getProjectsByUser_getProject_witness :
  Examples.Store.launch ∈ getProjectsByUser Examples.Store.orphaned "u2".
Proof.
  apply (getProjectsByUser_getProject Examples.Store.orphaned "u2" Examples.Store.launch).
  - apply (bool_decide_unpack _). vm_compute. exact I.
  - vm_compute. reflexivity.
Defined.

(** *** Tasks *)

Lemma getProject_unique st p uid :
  NoDup (projectId <$> PROJECTS st) → p ∈ PROJECTS st →
  getProject st (projectId p) uid
  = if decide (ownerId p = uid ∨ uid ∈ members p) then Some p else None.
Proof.
  intros Huniq Hin. unfold getProject.
  destruct (list_find_elem_of (λ q, projectId q = projectId p) (PROJECTS st) p Hin eq_refl)
    as [[i q] Hfind].
  rewrite Hfind. apply list_find_Some in Hfind as (Hi & Hid & _).
  assert (q = p) as ->.
  { eapply (ServerFacts.NoDup_fmap_eq projectId); [exact Huniq| |done|done].
    by eapply list_elem_of_lookup_2. }
  destruct (decide (ownerId p = uid)) as [Ho|Ho];
    destruct (decide (uid ∈ members p)) as [Hm|Hm];
    rewrite ?(bool_decide_eq_true_2 _ Hm), ?(bool_decide_eq_false_2 _ Hm);
    [rewrite (bool_decide_eq_false_2 (ownerId p ≠ uid)) by tauto..
    |rewrite (bool_decide_eq_true_2 (ownerId p ≠ uid)) by tauto
    |rewrite (bool_decide_eq_true_2 (ownerId p ≠ uid)) by tauto];
    simpl; destruct (decide _); tauto.
Qed.

(** X3.  A member who is not the owner cannot create a task while the
    project's allowMemberTaskCreate is false: createTask throws and writes
    nothing.  Once the owner has switched the flag on with updateProject,
    the same call by the same member creates the task. *)
Theorem createTask_after_flag_switched now now' newId st p s task member :
  NoDup (projectId <$> PROJECTS st) →
  p ∈ PROJECTS st → member ≠ ownerId p → member ∈ members p →
  settings p = Some s → allowMemberTaskCreate s = false →
  prop task "projectId" = JStr (projectId p) →
  let switch :=
    {| up_projectId := None; up_title := None; up_description := None;
       up_ownerId := None; up_members := None;
       up_settings :=
         Some (Some {| allowMemberTaskEdit := allowMemberTaskEdit s;
                       allowMemberTaskCreate := true;
                       allowMemberInvite := allowMemberInvite s |});
       up_createdAt := None |} in
  createTask now newId st task member
  = (Thrown "You do not have permission to create tasks in this project", st)
  ∧ ∃ created,
      (createTask now' newId
         (updateProject now st (projectId p) switch (ownerId p)).2 task member).1
      = Returned created
      ∧ prop created "taskId" = JStr newId.
Proof.
  intros Huniq Hin Hne Hmem Hset Hflag Hpid switch. split.
  - unfold createTask. rewrite Hpid. simpl.
    rewrite (getProject_unique st p member Huniq Hin).
    rewrite decide_True by tauto. unfold canCreate.
    rewrite (bool_decide_eq_false_2 (ownerId p = member)) by congruence.
    by rewrite Hset, Hflag, andb_false_r.
  - destruct (list_find_elem_of (λ q, projectId q = projectId p) (PROJECTS st) p Hin eq_refl)
      as [[i q] Hfind].
    pose proof Hfind as Hfind'. apply list_find_Some in Hfind' as (Hi & Hid & Hfirst).
    assert (q = p) as ->.
    { eapply (ServerFacts.NoDup_fmap_eq projectId); [exact Huniq| |done|done].
      by eapply list_elem_of_lookup_2. }
    unfold updateProject. rewrite Hfind.
    rewrite bool_decide_eq_false_2 by (intros ?; done). simpl.
    unfold createTask. rewrite Hpid. simpl. unfold getProject. simpl.
    set (p' := spread_project now p switch).
    assert (list_find (λ q, projectId q = projectId p) (<[i:=p']> (PROJECTS st))
            = Some (i, p')) as ->.
    { apply list_find_insert_Some. right. left. split_and!; try done.
      by eapply lookup_lt_Some. }
    simpl. rewrite (bool_decide_eq_true_2 (member ∈ members p)) by done.
    rewrite andb_false_r. unfold canCreate. simpl.
    rewrite (bool_decide_eq_true_2 (member ∈ members p)) by done. simpl.
    rewrite orb_true_r. simpl. eexists. split; [done|].
    unfold prop. by rewrite !lookup_insert_ne, lookup_insert_eq by done.
Qed.

Lemma createTask_after_flag_switched_witness :
  createTask 7 "t9" Examples.Store.orphaned
    {[ "projectId" := JStr "p1"; "title" := JStr "write" ]} "u2"
  = (Thrown "You do not have permission to create tasks in this project",
     Examples.Store.orphaned).
Proof.
  assert (NoDup (projectId <$> PROJECTS Examples.Store.orphaned)) as Huniq
    by (apply (bool_decide_unpack _); vm_compute; exact I).
  assert (Examples.Store.launch ∈ PROJECTS Examples.Store.orphaned) as Hin
    by constructor.
  assert ("u2" ∈ members Examples.Store.launch) as Hmem
    by (apply (bool_decide_unpack _); vm_compute; exact I).
  destruct (createTask_after_flag_switched 7 8 "t9" Examples.Store.orphaned
              Examples.Store.launch (Examples.Store.defaults true)
              {[ "projectId" := JStr "p1"; "title" := JStr "write" ]} "u2"
              Huniq Hin) as [H _].
  - intros Heq. discriminate Heq.
  - exact Hmem.
  - reflexivity.
  - reflexivity.
  - vm_compute. reflexivity.
  - exact H.
Defined.

(** X4.  A caller who sees the project and passes the permission test gets
    the task created; under a fresh task id the stored task is what getTask
    then returns to that caller, the projects are untouched, and a task
    given without a (truthy) priority is stored with priority "medium". *)
Theorem createTask_getTask now newId st task uid project :
  Forall (λ t, prop t "taskId" ≠ JStr newId) (TASKS st) →
  getProjectOf st (prop task "projectId") uid = Some project →
  canCreate project uid = true →
  ∃ created st',
    createTask now newId st task uid = (Returned created, st')
    ∧ getTask st' newId uid = Some (jsonClean created)
    ∧ PROJECTS st' = PROJECTS st
    ∧ prop created "projectId" = prop task "projectId"
    ∧ (truthy (prop task "priority") = false → prop created "priority" = JStr "medium").
Proof.
  intros Hfresh Hproj Hcan. unfold createTask. rewrite Hproj, Hcan. simpl.
  eexists _, _. split; [done|].
  set (created := <["updatedAt" := JDate now]> _).
  assert (prop created "projectId" = prop task "projectId") as Hpid
    by (unfold prop, created; by rewrite !lookup_insert_ne by done).
  split_and!; try done.
  - unfold getTask. simpl. rewrite fmap_app. simpl.
    rewrite (list_find_snoc_first (λ t, prop t "taskId" = JStr newId)).
    + rewrite ClientFacts.prop_jsonClean, Hpid.
      rewrite (getProjectOf_projects st) by done. by rewrite Hproj.
    + apply Forall_fmap. eapply Forall_impl; [exact Hfresh|].
      intros t Ht. simpl. by rewrite ClientFacts.prop_jsonClean.
    + rewrite ClientFacts.prop_jsonClean. unfold prop, created.
      by rewrite !lookup_insert_ne, lookup_insert_eq by done.
  - intros Hfalsy. unfold prop at 1. unfold created.
    rewrite !lookup_insert_ne, lookup_insert_eq by done. simpl. by rewrite Hfalsy.
Qed.

Lemma createTask_getTask_witness :
  ∃ created st',
    createTask 7 "t9" Examples.Store.orphaned
      {[ "projectId" := JStr "p1"; "title" := JStr "write" ]} "u1"
    = (Returned created, st')
    ∧ getTask st' "t9" "u1" = Some (jsonClean created).
Proof.
  destruct (createTask_getTask 7 "t9" Examples.Store.orphaned
              {[ "projectId" := JStr "p1"; "title" := JStr "write" ]} "u1"
              Examples.Store.launch) as (created & st' & H1 & H2 & _).
  - constructor.
  - vm_compute. reflexivity.
  - vm_compute. reflexivity.
  - exists created, st'. split; [exact H1|exact H2].
Defined.

(** X5.  getTask returns a task only to a user who owns, or is a member
    of, the project the task belongs to. *)
Theorem getTask_only_visible st taskId uid task :
  getTask st taskId uid = Some task →
  task ∈ TASKS st ∧ prop task "taskId" = JStr taskId
  ∧ ∃ p, p ∈ PROJECTS st ∧ prop task "projectId" = JStr (projectId p)
         ∧ (ownerId p = uid ∨ uid ∈ members p).
Proof.
  unfold getTask.
  destruct (list_find _ _) as [[k t]|] eqn:Hfind; [|done].
  destruct (getProjectOf st (prop t "projectId") uid) as [p|] eqn:Hp; [|done].
  intros [= ->]. apply list_find_Some in Hfind as (Hk & Hid & _).
  split_and!; [by eapply list_elem_of_lookup_2|done|].
  unfold getProjectOf in Hp. destruct (prop task "projectId") as [| | | |pid| |]; try done.
  apply ClientFacts.getProject_Some in Hp as (Hin & <- & Hvis). eauto.
Qed.

Lemma getTask_only_visible_witness :
  Examples.Store.task "pending" "u2" ∈ TASKS (Examples.Store.board "pending").
Proof.
  destruct (getTask_only_visible (Examples.Store.board "pending") "t1" "u2"
              (Examples.Store.task "pending" "u2")) as [H _].
  - vm_compute. reflexivity.
  - exact H.
Defined.

Lemma NoDup_fmap_delete {A K} (f : A → K) (l : list A) k x :
  NoDup (f <$> l) → l !! k = Some x → Forall (λ y, f y ≠ f x) (delete k l).
Proof.
  intros Hnd Hk. apply Forall_forall. intros y Hy Heq.
  apply list_elem_of_lookup in Hy as [j Hj].
  rewrite list_lookup_delete in Hj.
  assert (∀ i, l !! i = Some y → i = k) as Hsame.
  { intros i Hi. eapply (NoDup_lookup (f <$> l)); [done| |].
    - rewrite list_lookup_fmap, Hi. simpl. by rewrite Heq.
    - by rewrite list_lookup_fmap, Hk. }
  case_decide as Hlt.
  - apply Hsame in Hj. lia.
  - apply Hsame in Hj. lia.
Qed.

(** X6.  deleteTask answers [true] only to the owner of the project that
    the task belongs to, and then removes exactly the task it found; every
    other outcome writes nothing.  When task ids are unique, the deleted id
    is afterwards unknown to getTask, whoever asks. *)
Theorem deleteTask_outcome st taskId uid who :
  NoDup ((λ t, prop t "taskId") <$> TASKS st) →
  let r := (deleteTask st taskId uid).1 in
  let st' := (deleteTask st taskId uid).2 in
  (r = Returned true →
   (∃ k task project,
      list_find (λ t, prop t "taskId" = JStr taskId) (TASKS st) = Some (k, task)
      ∧ getProjectOf st (prop task "projectId") uid = Some project
      ∧ ownerId project = uid
      ∧ TASKS st' = jsonClean <$> delete k (TASKS st))
   ∧ PROJECTS st' = PROJECTS st
   ∧ getTask st' taskId who = None)
  ∧ (r ≠ Returned true → st' = st).
Proof.
  intros Huniq r st'. subst r st'. unfold deleteTask.
  destruct (list_find _ _) as [[k task]|] eqn:Hfind; simpl; [|by split].
  destruct (getProjectOf st (prop task "projectId") uid) as [project|] eqn:Hp;
    simpl; [|by split].
  case_bool_decide as Hown; simpl; [by split|].
  split; [|done]. intros _. split_and!; [|done|].
  - exists k, task, project. by split_and!.
  - unfold getTask. simpl.
    apply list_find_Some in Hfind as (Hk & Hid & _).
    rewrite (proj2 (list_find_None _ _)); [done|].
    apply Forall_fmap.
    eapply Forall_impl;
      [exact (NoDup_fmap_delete (λ t, prop t "taskId") _ k task Huniq Hk)|].
    intros t Ht. simpl in *. rewrite ClientFacts.prop_jsonClean. congruence.
Qed.

Lemma deleteTask_outcome_witness :
  getTask (deleteTask (Examples.Store.board "pending") "t1" "u1").2 "t1" "u2" = None.
Proof.
  assert (NoDup ((λ t, prop t "taskId") <$> TASKS (Examples.Store.board "pending")))
    as Huniq by (apply (bool_decide_unpack _); vm_compute; exact I).
  destruct (deleteTask_outcome (Examples.Store.board "pending") "t1" "u1" "u2" Huniq)
    as [H _].
  destruct H as (_ & _ & H).
  - vm_compute. reflexivity.
  - exact H.
Defined.

(** *** Sessions *)

(** Filtering out rows that fail the test does not change what is found. *)
Lemma find_filter {A} (P Q : A → Prop) `{!∀ x, Decision (P x)} `{!∀ x, Decision (Q x)}
    (l : list A) :
  (∀ x, P x → Q x) → snd <$> list_find P (filter Q l) = snd <$> list_find P l.
Proof.
  intros HPQ. induction l as [|x l IH]; [done|].
  rewrite filter_cons. destruct (decide (Q x)) as [HQ|HQ].
  - simpl. destruct (decide (P x)); [done|].
    destruct (list_find P (filter Q l)) as [[??]|],
      (list_find P l) as [[??]|]; simpl in *; congruence.
  - simpl. rewrite decide_False by (intros HP; by apply HQ, HPQ).
    rewrite IH. by destruct (list_find P l) as [[??]|].
Qed.

Lemma find_snoc {A} (P : A → Prop) `{!∀ x, Decision (P x)} (l : list A) x :
  ¬ P x → snd <$> list_find P (l ++ [x]) = snd <$> list_find P l.
Proof. intros Hx. by rewrite list_find_snoc_other. Qed.

(** X7.  After createUserSession the user has exactly one session, the new
    one; it is active and is what getUserSession returns for the user, and
    what getUserSession returns for every other user is unchanged. *)
Theorem createUserSession_getUserSession now st sessions user other :
  let session := (createUserSession now st sessions user).1 in
  let sessions' := (createUserSession now st sessions user).2 in
  getUserSession sessions' (userId user) = Some session
  ∧ filter (λ s, s_userId s = userId user) sessions' = [session]
  ∧ isActive session = true
  ∧ (other ≠ userId user →
     getUserSession sessions' other = getUserSession sessions other).
Proof.
  intros session sessions'. subst sessions'. unfold createUserSession. simpl.
  fold session.
  assert (Forall (λ s, s_userId s ≠ userId user)
            (filter (λ s, s_userId s ≠ userId user) sessions)) as Hnone.
  { apply Forall_forall. by intros s [? _]%list_elem_of_filter. }
  split_and!.
  - unfold getUserSession.
    rewrite (list_find_snoc_first (λ s, s_userId s = userId user ∧ isActive s = true));
      [done| |done].
    eapply Forall_impl; [exact Hnone|]. simpl. tauto.
  - rewrite filter_app, filter_cons_True, filter_nil by done.
    rewrite (proj2 (ServerFacts.filter_nil_Forall _ _)); [done|].
    eapply Forall_impl; [exact Hnone|]. simpl. tauto.
  - done.
  - intros Hother. unfold getUserSession.
    rewrite find_snoc by (simpl; intros [? _]; congruence).
    apply find_filter. intros s [? _]. congruence.
Qed.

Lemma createUserSession_getUserSession_witness :
  let user := {| userId := "u1"; email := "o@x.com"; name := "O"; role := general |} in
  getUserSession (createUserSession 9 Examples.Store.orphaned [] user).2 "u7"
  = getUserSession [] "u7".
Proof.
  intros user.
  destruct (createUserSession_getUserSession 9 Examples.Store.orphaned [] user "u7")
    as (_ & _ & _ & H).
  apply H. intros Heq. discriminate Heq.
Defined.

(** X8.  Logging out right after logging in leaves the user without an
    active session, whatever sessions were stored before. *)
Theorem logoutUser_after_createUserSession now st sessions user :
  getUserSession
    (logoutUser (createUserSession now st sessions user).2 (userId user))
    (userId user)
  = None.
Proof.
  unfold createUserSession. simpl.
  set (session := {| s_userId := userId user; s_email := email user;
                     s_name := name user; s_role := role user;
                     accessibleProjects := _; isActive := true; lastLoginAt := now |}).
  set (old := filter (λ s, s_userId s ≠ userId user) sessions).
  assert (Forall (λ s, s_userId s ≠ userId user) old) as Hnone.
  { apply Forall_forall. by intros s [? _]%list_elem_of_filter. }
  unfold logoutUser.
  rewrite (list_find_snoc_first (λ s, s_userId s = userId user)); [|done|done].
  replace (alter deactivate (length old) (old ++ [session]))
    with (old ++ [deactivate session]).
  - unfold getUserSession. rewrite (proj2 (list_find_None _ _)); [done|].
    apply Forall_app. split.
    + eapply Forall_impl; [exact Hnone|]. simpl. tauto.
    + apply Forall_singleton. simpl. by intros [_ ?].
  - symmetry. rewrite alter_app_r_alt by done.
    by replace (length old - length old) with 0 by lia.
Qed.

(** *** Listed invitations *)

(** X9.  When invitation ids are unique, every invitation that
    getInvitationsForEmail lists is one that acceptInvitation accepts at that
    moment, and once it is accepted it is no longer listed. *)
Theorem listed_invitation_accepted now st mail uid inv :
  NoDup (invitationId <$> INVITATIONS st) →
  inv ∈ getInvitationsForEmail now st mail →
  (acceptInvitation now st (invitationId inv) uid).1 = true
  ∧ Forall (λ j, invitationId j ≠ invitationId inv)
      (getInvitationsForEmail now (acceptInvitation now st (invitationId inv) uid).2 mail).
Proof.
  intros Huniq [(Hmail & Hst & Hexp) Hin]%list_elem_of_filter.
  destruct (list_find_elem_of (λ j, invitationId j = invitationId inv) (INVITATIONS st)
              inv Hin eq_refl) as [[k found] Hfind].
  pose proof Hfind as Hfind'. apply list_find_Some in Hfind' as (Hk & Hid & _).
  assert (found = inv) as ->.
  { eapply (ServerFacts.NoDup_fmap_eq invitationId); [exact Huniq| |done|done].
    by eapply list_elem_of_lookup_2. }
  split.
  - apply ClientFacts.acceptInvitation_true_iff. by exists k, inv.
  - unfold getInvitationsForEmail.
    assert (INVITATIONS (acceptInvitation now st (invitationId inv) uid).2
            = alter (set_status accepted) k (INVITATIONS st)) as ->.
    { unfold acceptInvitation. rewrite Hfind.
      rewrite bool_decide_eq_false_2 by (intros ?; done).
      rewrite bool_decide_eq_false_2 by lia. simpl.
      by repeat case_match. }
    apply Forall_forall. intros j [(_ & Hpend & _) Hj]%list_elem_of_filter Hsame.
    apply list_elem_of_lookup in Hj as [i Hi].
    destruct (decide (i = k)) as [->|Hik].
    + rewrite list_lookup_alter_eq, Hk in Hi. simpl in Hi.
      injection Hi as <-. done.
    + rewrite list_lookup_alter_ne in Hi by done.
      assert (j = inv) as ->.
      { eapply (ServerFacts.NoDup_fmap_eq invitationId); [exact Huniq| |done|done].
        by eapply list_elem_of_lookup_2. }
      apply Hik. eapply NoDup_lookup; [| |].
      * exact Huniq.
      * by rewrite list_lookup_fmap, Hi.
      * by rewrite list_lookup_fmap, Hk.
Qed.

Lemma listed_invitation_accepted_witness :
  (acceptInvitation Examples.NOW Examples.Store.orphaned "i1" "u3").1 = true.
Proof.
  assert (NoDup (invitationId <$> INVITATIONS Examples.Store.orphaned)) as Huniq
    by (apply (bool_decide_unpack _); vm_compute; exact I).
  destruct (listed_invitation_accepted Examples.NOW Examples.Store.orphaned "c@x.com" "u3"
              (Examples.Store.invite "i1" "p9" "c@x.com" pending 5000) Huniq) as [H _].
  - vm_compute. constructor.
  - exact H.
Defined.

(** X10.  A successful updateProject that leaves [projectId] and [ownerId]
    alone: the owner reads the updated project back, the project ids, the
    tasks and the invitations are as before, and the same call by any other
    user is refused and writes nothing. *)
Theorem updateProject_getProject now st pid updates uid p' st' :
  up_projectId updates = None → up_ownerId updates = None →
  updateProject now st pid updates uid = (Returned (Some p'), st') →
  getProject st' pid uid = Some p'
  ∧ projectId <$> PROJECTS st' = projectId <$> PROJECTS st
  ∧ TASKS st' = TASKS st ∧ INVITATIONS st' = INVITATIONS st
  ∧ ∀ other, other ≠ uid →
      updateProject now st pid updates other
      = (Thrown "Only the project owner can update project settings", st).
Proof.
  intros Hid Hown. unfold updateProject.
  destruct (list_find _ (PROJECTS st)) as [[k p]|] eqn:Hfind; [|done].
  case_bool_decide as Ho; [done|].
  intros [= <- <-]. apply list_find_Some in Hfind as (Hk & Hp & Hbefore).
  assert (projectId (spread_project now p updates) = pid) as Hid'
    by (unfold spread_project; simpl; by rewrite Hid).
  assert (ownerId (spread_project now p updates) = uid) as Hown'
    by (unfold spread_project; simpl; by rewrite Hown).
  split_and!; try done.
  - unfold getProject. simpl.
    assert (list_find (λ q, projectId q = pid)
              (<[k := spread_project now p updates]> (PROJECTS st))
            = Some (k, spread_project now p updates)) as ->.
    { apply list_find_insert_Some. right. left. split_and!; try done.
      by apply lookup_lt_Some in Hk. }
    rewrite bool_decide_eq_false_2; [done|]. intros ?; done.
  - simpl. rewrite list_fmap_insert, Hid', <- Hp.
    apply list_insert_id. by rewrite list_lookup_fmap, Hk.
  - intros other Hother. rewrite bool_decide_eq_true_2; [done|]. congruence.
Qed.

Lemma updateProject_getProject_witness :
  let updates := {| up_projectId := None; up_title := Some "Relaunch";
                    up_description := None; up_ownerId := None;
                    up_members := None; up_settings := None;
                    up_createdAt := None |} in
  let run := updateProject Examples.NOW Examples.Store.stale "p1" updates "u1" in
  ∃ p, run.1 = Returned (Some p) ∧ getProject run.2 "p1" "u1" = Some p
       ∧ title p = "Relaunch".
Proof.
  intros updates run.
  exists (spread_project Examples.NOW Examples.Store.launch updates).
  destruct (updateProject_getProject Examples.NOW Examples.Store.stale "p1" updates
              "u1" (spread_project Examples.NOW Examples.Store.launch updates) run.2
              eq_refl eq_refl) as [Hget _].
  - vm_compute. reflexivity.
  - split; [vm_compute; reflexivity|]. split; [exact Hget|reflexivity].
Defined.

End ClientMoreFacts.

(** ** More of the server *)

Module ServerMoreFacts.
Import Js Server ServerMore.

(** [ServerFacts.accept_atomic] with the transaction failing at COMMIT: the
    answer is a failure and nothing is written. *)
Lemma accept_atomic_witness :
  let db := Examples.Db.db true "pending" "u2" in
  invitations_accept (λ n, bool_decide (n = 6)) Examples.NOW Examples.Db.outsider "i1" db
  = (fail_with 500 "Failed to accept invitation", db).
Proof.
  intros db.
  pose proof (ServerFacts.accept_atomic (λ n, bool_decide (n = 6)) Examples.NOW
                Examples.Db.outsider "i1" db) as H.
  destruct (invitations_accept (λ n, bool_decide (n = 6)) Examples.NOW
              Examples.Db.outsider "i1" db) as [r d] eqn:Hrun.
  destruct H as [Hfail _].
  assert (r = fail_with 500 "Failed to accept invitation") as ->.
  { vm_compute in Hrun. injection Hrun as <- _. reflexivity. }
  rewrite (Hfail eq_refl). reflexivity.
Defined.

(** [ServerFacts.invite_outcome] on the example database: the owner invites
    a new address; the invitation is stored whether the mail goes out or
    not. *)
Lemma invite_outcome_witness :
  let db := Examples.Db.db true "pending" "u2" in
  let run := λ fault,
    invitations_post fault Examples.NOW Examples.lower 1200 true "i9"
      Examples.Db.owner "New@x.com" "p1" db in
  Schema.project_ids_unique db
  ∧ code (run no_fault).1 = 201
  ∧ code (run mail_fails).1 = 500
  ∧ length (invitations (run mail_fails).2) = S (length (invitations db)).
Proof.
  intros db run.
  assert (Schema.project_ids_unique db) as Huniq
    by (apply (bool_decide_unpack _); vm_compute; exact I).
  split; [exact Huniq|].
  pose proof (ServerFacts.invite_outcome Examples.NOW Examples.lower 1200 "i9"
                Examples.Db.owner "New@x.com" "p1" db (Examples.Db.launch true)
                Huniq) as H.
  fold run in H. cbv zeta in H.
  destruct (run no_fault) as [r d].
  destruct H as (_ & _ & Hok).
  - constructor.
  - reflexivity.
  - destruct Hok as (Hcode & row & _ & _ & _ & _ & _ & Hmail & Hkept).
    + reflexivity.
    + intros [Hm|Hi].
      * apply (bool_decide_pack _) in Hm. vm_compute in Hm. exact Hm.
      * apply (bool_decide_pack _) in Hi. vm_compute in Hi. exact Hi.
    + split; [exact Hcode|]. split.
      * rewrite Hmail. reflexivity.
      * rewrite Hkept, length_app. simpl. lia.
Defined.

(** [ServerFacts.members_delete_outcome] on the example database: the owner
    "u1" cannot remove "u1", and removes their own membership by sending
    "U1". *)
Lemma members_delete_outcome_witness :
  let db := Examples.Db.db true "pending" "u2" in
  (members_delete no_fault Examples.uuid_in Examples.Db.owner "p1" "u1" db).1
  = fail_with 400 "Cannot remove project owner"
  ∧ (members_delete no_fault Examples.uuid_in Examples.Db.owner "p1" "U1" db).1
    = ok_with 200 "Member removed successfully" NoData
  ∧ project_members
      (members_delete no_fault Examples.uuid_in Examples.Db.owner "p1" "U1" db).2
    = [ {| pm_project_id := "p1"; pm_user_id := "u2" |} ].
Proof.
  intros db.
  assert (Exists (λ p, project_id p = "p1" ∧ owner_id p = user_id Examples.Db.owner)
            (projects db)) as Hown by (by left).
  split.
  - pose proof (ServerFacts.members_delete_outcome Examples.uuid_in Examples.Db.owner
                  "p1" "u1" db) as H.
    destruct (members_delete no_fault Examples.uuid_in Examples.Db.owner "p1" "u1" db)
      as [r d].
    destruct H as (_ & Hself & _). destruct (Hself Hown eq_refl) as [-> _].
    reflexivity.
  - pose proof (ServerFacts.members_delete_outcome Examples.uuid_in Examples.Db.owner
                  "p1" "U1" db) as H.
    destruct (members_delete no_fault Examples.uuid_in Examples.Db.owner "p1" "U1" db)
      as [r d].
    destruct H as (_ & _ & _ & Hread).
    destruct (Hread "u1" Hown) as [_ Hhit].
    + intros Heq. discriminate Heq.
    + reflexivity.
    + destruct Hhit as (Hr & Hm & _); [constructor|].
      simpl. rewrite Hr, Hm. split; [reflexivity|]. vm_compute. reflexivity.
Defined.

(** *** Invitation details and received invitations *)

Lemma detailsQuery_row iid db i :
  Schema.invitation_ids_unique db → Schema.invitation_projects_exist db →
  invitation_inviters_exist db →
  i ∈ invitations db → inv_id i = iid →
  ∃ d rest, detailsQuery iid db = d :: rest
    ∧ d_id d = iid ∧ d_project_id d = inv_project_id i
    ∧ d_invitee_email d = invitee_email i ∧ d_status d = inv_status i
    ∧ d_expires_at d = expires_at i ∧ d_created_at d = created_at i.
Proof.
  intros Huniq Hfk Hfku Hin <-. unfold detailsQuery.
  rewrite (ServerFacts.filter_unique_key_only inv_id) by done. simpl.
  unfold Schema.invitation_projects_exist, invitation_inviters_exist in *.
  rewrite Forall_forall in Hfk, Hfku.
  specialize (Hfk i Hin). specialize (Hfku i Hin).
  destruct (filter (λ p, project_id p = inv_project_id i) (projects db))
    as [|p ps] eqn:Hps.
  { apply ServerFacts.filter_nil_Forall in Hps.
    apply Exists_exists in Hfk as (p & Hp & Heq).
    rewrite Forall_forall in Hps. by destruct (Hps p Hp). }
  destruct (filter (λ u, user_id u = inviter_id i) (users db)) as [|u us] eqn:Hus.
  { apply ServerFacts.filter_nil_Forall in Hus.
    apply Exists_exists in Hfku as (u & Hu & Heq).
    rewrite Forall_forall in Hus. by destruct (Hus u Hu). }
  simpl. eexists _, _. split; [reflexivity|]. by split_and!.
Qed.

(** X14.  The details route tells the failures apart, expiry first: an
    unknown id gives 404; an invitation at or past its expiry gives 410
    "Invitation has expired" whatever its status; an unexpired invitation
    that is not pending gives 410 naming its status; a pending unexpired one
    is returned with 200.  The expiry is tested against [new Date()]. *)
Theorem invitation_details_outcome dateNow iid db i :
  Schema.invitation_ids_unique db → Schema.invitation_projects_exist db →
  invitation_inviters_exist db →
  i ∈ invitations db → inv_id i = iid →
  let r := (invitations_get no_fault dateNow iid db).1 in
  ((expires_at i ≤ dateNow)%Z → r = refuse 410 "Invitation has expired")
  ∧ ((dateNow < expires_at i)%Z → inv_status i ≠ pending →
     r = refuse 410 ("Invitation has already been " +:+ status_text (inv_status i)))
  ∧ ((dateNow < expires_at i)%Z → inv_status i = pending →
     r_code r = 200
     ∧ ∃ d, r_data r = Some d ∧ d_id d = iid
            ∧ d_invitee_email d = invitee_email i
            ∧ d_project_id d = inv_project_id i).
Proof.
  intros Huniq Hfk Hfku Hin Hid r.
  destruct (detailsQuery_row iid db i Huniq Hfk Hfku Hin Hid)
    as (d & rest & Hq & Hd1 & Hd2 & Hd3 & Hd4 & Hd5 & Hd6).
  subst r. unfold invitations_get, run_route, get_invitation, bind, db_query,
    select, ret. simpl. rewrite Hq, Hd5, Hd4. split_and!.
  - intros Hexp. by rewrite bool_decide_eq_true_2.
  - intros Hexp Hst. rewrite bool_decide_eq_false_2 by lia.
    by rewrite bool_decide_eq_true_2.
  - intros Hexp Hst. rewrite bool_decide_eq_false_2 by lia.
    rewrite bool_decide_eq_false_2 by (intros ?; done). simpl.
    split; [done|]. by exists d.
Qed.

Lemma invitation_details_outcome_witness :
  let db := Examples.Db.db true "pending" "u2" in
  (invitations_get no_fault Examples.NOW "i2" db).1 = refuse 410 "Invitation has expired".
Proof.
  intros db.
  assert (Schema.invitation_ids_unique db) as H1
    by (apply (bool_decide_unpack _); vm_compute; exact I).
  assert (Schema.invitation_projects_exist db) as H2
    by (apply (bool_decide_unpack _); vm_compute; exact I).
  assert (invitation_inviters_exist db) as H3
    by (apply (bool_decide_unpack _); vm_compute; exact I).
  destruct (invitation_details_outcome Examples.NOW "i2" db
              (Examples.Db.invite "i2" "c@x.com" pending 500) H1 H2 H3) as [H _].
  - constructor. constructor.
  - reflexivity.
  - apply H. vm_compute. intros Heq. discriminate Heq.
Defined.

(** An unknown invitation id gives 404. *)
Lemma invitation_details_unknown now iid db :
  Forall (λ i, inv_id i ≠ iid) (invitations db) →
  invitations_get no_fault now iid db = (refuse 404 "Invitation not found", db).
Proof.
  intros Hall. unfold invitations_get, run_route, get_invitation, bind, db_query,
    select, ret. simpl. unfold detailsQuery.
  by rewrite (proj2 (ServerFacts.filter_nil_Forall _ _) Hall).
Qed.

(** X15.  An invitation whose details are served with 200 can be accepted
    by the user whose e-mail address it names, and by nobody else: any
    other user gets 403.  The details route tests the expiry against the
    clock of the server process and the accept route against the clock of
    the database: the accept is one that the database sees no later than
    the server saw the read. *)
Theorem details_then_accept dateNow now user iid db :
  Schema.invitation_ids_unique db → Schema.invitation_projects_exist db →
  (now ≤ dateNow)%Z →
  ∀ d, (invitations_get no_fault dateNow iid db).1 = answer 200 "" d →
  let r := (invitations_accept no_fault now user iid db).1 in
  (d_invitee_email d = user_email user → code r = 200 ∧ success r = true)
  ∧ (d_invitee_email d ≠ user_email user →
     r = fail_with 403 "This invitation is not for your email address").
Proof.
  intros Huniq Hfk Hclock d Hget r.
  unfold invitations_get, run_route, get_invitation, bind, db_query, select, ret
    in Hget. simpl in Hget.
  destruct (detailsQuery iid db) as [|d0 rest] eqn:Hq; [done|].
  simpl in Hget.
  case_bool_decide as Hexp; [done|]. case_bool_decide as Hst; [done|].
  injection Hget as ->.
  assert (d ∈ detailsQuery iid db) as Hd by (rewrite Hq; by left).
  unfold detailsQuery in Hd.
  apply list_elem_of_bind in Hd as (i & Hd & [Hid Hin]%list_elem_of_filter).
  apply list_elem_of_bind in Hd as (p & Hd & _).
  apply list_elem_of_bind in Hd as (u & Hd & _).
  apply list_elem_of_singleton in Hd. subst d. simpl in *.
  destruct (ServerFacts.accept_known now user iid db i Huniq Hfk Hin Hid)
    as (_ & Hno & Hyes).
  split.
  - intros Hmail. apply Hyes; [|done]. split; [|lia].
    by destruct (decide (inv_status i = pending)).
  - intros Hmail. apply Hno; [|done]. split; [|lia].
    by destruct (decide (inv_status i = pending)).
Qed.

Lemma details_then_accept_witness :
  let db := Examples.Db.db true "pending" "u2" in
  code (invitations_accept no_fault Examples.NOW Examples.Db.outsider "i1" db).1 = 200.
Proof.
  intros db.
  assert (Schema.invitation_ids_unique db) as H1
    by (apply (bool_decide_unpack _); vm_compute; exact I).
  assert (Schema.invitation_projects_exist db) as H2
    by (apply (bool_decide_unpack _); vm_compute; exact I).
  destruct (details_then_accept 1200 Examples.NOW Examples.Db.outsider "i1" db H1 H2
              ltac:(vm_compute; discriminate)
              {| d_id := "i1"; d_project_id := "p1"; d_invitee_email := "c@x.com";
                 d_status := pending; d_expires_at := 5000; d_created_at := 0;
                 d_project_title := "Launch"; d_inviter_name := "u1";
                 d_inviter_email := "o@x.com" |}) as [H _].
  - vm_compute. reflexivity.
  - destruct (H eq_refl) as [Hcode _]. exact Hcode.
Defined.

#[local] Instance newer_first_trans : Transitive newer_first.
Proof. unfold newer_first. intros a b c. lia. Qed.

#[local] Instance newer_first_total : Total newer_first.
Proof. unfold newer_first. intros a b. lia. Qed.

(** X16.  The received list is answered with 200, newest first, and holds
    exactly the invitations that are addressed to the caller, pending and
    unexpired: each row comes from such an invitation, and, under the foreign
    keys on project and inviter, each such invitation has its row. *)
Theorem received_sorted_and_addressed now user db :
  ∃ rows,
    (invitations_received no_fault now user db).1 = answer 200 "" rows
    ∧ StronglySorted newer_first rows
    ∧ (∀ r, r ∈ rows →
         ∃ i, i ∈ invitations db ∧ inv_id i = rc_id r
              ∧ invitee_email i = user_email user ∧ inv_status i = pending
              ∧ (now < expires_at i)%Z)
    ∧ (Schema.invitation_projects_exist db → invitation_inviters_exist db →
       ∀ i, i ∈ invitations db → invitee_email i = user_email user →
            inv_status i = pending → (now < expires_at i)%Z →
            ∃ r, r ∈ rows ∧ rc_id r = inv_id i).
Proof.
  exists (receivedQuery now (user_email user) db).
  split; [reflexivity|]. unfold receivedQuery. split_and!.
  - apply StronglySorted_merge_sort; apply _.
  - intros r Hr. rewrite merge_sort_Permutation in Hr.
    apply list_elem_of_bind in Hr as (i & Hr & [Hi Hin]%list_elem_of_filter).
    apply list_elem_of_bind in Hr as (p & Hr & _).
    apply list_elem_of_bind in Hr as (u & Hr & _).
    apply list_elem_of_singleton in Hr. subst r. simpl.
    exists i. tauto.
  - intros Hfk Hfku i Hin Hmail Hst Hexp.
    unfold Schema.invitation_projects_exist, invitation_inviters_exist in *.
    rewrite Forall_forall in Hfk, Hfku.
    specialize (Hfk i Hin). specialize (Hfku i Hin).
    apply Exists_exists in Hfk as (p & Hp & Hpid).
    apply Exists_exists in Hfku as (u & Hu & Huid).
    eexists. split; [|shelve].
    rewrite merge_sort_Permutation.
    apply list_elem_of_bind. exists i. split; [|by apply list_elem_of_filter].
    apply list_elem_of_bind. exists p. split; [|by apply list_elem_of_filter].
    apply list_elem_of_bind. exists u. split; [|by apply list_elem_of_filter].
    apply list_elem_of_singleton. reflexivity.
    Unshelve. reflexivity.
Qed.

(** X17.  Every invitation of the received list can be accepted by the
    caller at that moment. *)
Theorem received_then_accept now user db :
  Schema.invitation_ids_unique db → Schema.invitation_projects_exist db →
  ∀ rows r, (invitations_received no_fault now user db).1 = answer 200 "" rows →
    r ∈ rows →
    let a := (invitations_accept no_fault now user (rc_id r) db).1 in
    code a = 200 ∧ success a = true.
Proof.
  intros Huniq Hfk rows r Hget Hr a.
  assert (rows = receivedQuery now (user_email user) db) as ->
    by (by injection Hget).
  unfold receivedQuery in Hr. rewrite merge_sort_Permutation in Hr.
  apply list_elem_of_bind in Hr as (i & Hr & [Hi Hin]%list_elem_of_filter).
  apply list_elem_of_bind in Hr as (p & Hr & _).
  apply list_elem_of_bind in Hr as (u & Hr & _).
  apply list_elem_of_singleton in Hr. subst r. simpl in *.
  destruct (ServerFacts.accept_known now user (inv_id i) db i Huniq Hfk Hin eq_refl)
    as (_ & _ & Hyes).
  apply Hyes; tauto.
Qed.

Lemma received_then_accept_witness :
  let db := Examples.Db.db true "pending" "u2" in
  code (invitations_accept no_fault Examples.NOW Examples.Db.outsider "i1" db).1 = 200.
Proof.
  intros db.
  assert (Schema.invitation_ids_unique db) as H1
    by (apply (bool_decide_unpack _); vm_compute; exact I).
  assert (Schema.invitation_projects_exist db) as H2
    by (apply (bool_decide_unpack _); vm_compute; exact I).
  destruct (received_then_accept Examples.NOW Examples.Db.outsider db H1 H2
              [{| rc_id := "i1"; rc_project_id := "p1";
                  rc_status := pending; rc_expires_at := 5000; rc_created_at := 0;
                  rc_project_title := "Launch"; rc_inviter_name := "u1";
                  rc_inviter_email := "o@x.com" |}]
              {| rc_id := "i1"; rc_project_id := "p1";
                  rc_status := pending; rc_expires_at := 5000; rc_created_at := 0;
                  rc_project_title := "Launch"; rc_inviter_name := "u1";
                  rc_inviter_email := "o@x.com" |}) as [Hcode _].
  - vm_compute. reflexivity.
  - constructor.
  - exact Hcode.
Defined.

(** *** Creating and deleting tasks *)

Lemma tasks_post_cases now newId user pid value db p :
  Schema.project_ids_unique db → p ∈ projects db → project_id p = pid →
  tasks_post no_fault now true newId user pid value db
  = if may_create user p db
    then match insertTask now newId pid value db with
         | Some (row, db') => (answer 201 "Task created successfully" row, db')
         | None => (refuse 500 "Failed to create task", db)
         end
    else (refuse 403 "You do not have permission to create tasks in this project", db).
Proof.
  intros Huniq Hin Hid.
  destruct (ServerFacts.projectQuery_row pid (user_id user) db p Huniq Hin Hid)
    as (m & rest & Hq & Hm).
  unfold tasks_post, run_route, post_task, bind, db_query, select, ret.
  simpl. rewrite Hq. unfold may_create. rewrite Hid.
  assert (bool_decide (m ≠ None)
          = bool_decide ({| pm_project_id := pid; pm_user_id := user_id user |}
                         ∈ project_members db)) as ->
    by by apply bool_decide_ext.
  assert (match project_settings p with Some s => allowMemberTaskCreate s | None => false end
          = from_option allowMemberTaskCreate false (project_settings p)) as ->
    by by destruct (project_settings p).
  by destruct (_ || _).
Qed.

(** X18.  Creating a task in an existing project, with a valid body and no
    failing call: the caller must own the project or be a member of a
    project that lets members create tasks, else 403 and nothing is written;
    a permitted caller gets 201 and the returned row is appended to the
    tasks, with the fresh id, the project of the body and no completion
    time.  The other tables and the other tasks are untouched. *)
Theorem tasks_post_outcome now newId user pid value db p :
  Schema.project_ids_unique db → p ∈ projects db → project_id p = pid →
  let '(r, db') := tasks_post no_fault now true newId user pid value db in
  (may_create user p db = false →
   r = refuse 403 "You do not have permission to create tasks in this project"
   ∧ db' = db)
  ∧ (may_create user p db = true →
     r_code r = 201
     ∧ ∃ row, r_data r = Some row ∧ db' = with_tasks db (tasks db ++ [row])
              ∧ row !! "id" = Some (SqlOf (JStr newId))
              ∧ row !! "project_id" = Some (SqlOf (JStr pid))
              ∧ row !! "completed_at" = Some SqlNull
              ∧ row !! "assignee_id" = Some (sql_param (prop value "assigneeId"))).
Proof.
  intros Huniq Hin Hid.
  rewrite (tasks_post_cases now newId user pid value db p) by done.
  destruct (may_create user p db); simpl.
  - split; [done|]. intros _. split; [done|]. eexists. split; [done|].
    split; [done|]. by split_and!.
  - by split.
Qed.

Lemma tasks_post_outcome_witness :
  let db := Examples.Db.db true "pending" "u2" in
  ∃ db', tasks_post no_fault Examples.NOW true "t9" Examples.Db.outsider "p1" ∅ db
         = (refuse 403 "You do not have permission to create tasks in this project", db').
Proof.
  intros db.
  assert (Schema.project_ids_unique db) as H1
    by (apply (bool_decide_unpack _); vm_compute; exact I).
  assert (Examples.Db.launch true ∈ projects db) as H2 by constructor.
  pose proof (tasks_post_outcome Examples.NOW "t9" Examples.Db.outsider "p1" ∅ db
                (Examples.Db.launch true) H1 H2 eq_refl) as H.
  destruct (tasks_post no_fault Examples.NOW true "t9" Examples.Db.outsider "p1" ∅ db)
    as [r db'].
  destruct H as [H _]. exists db'. destruct H as [-> _]; [|reflexivity].
  vm_compute. reflexivity.
Defined.

(** A task of an unknown project is refused with 404. *)
Lemma tasks_post_unknown_project now newId user pid value db :
  Forall (λ p, project_id p ≠ pid) (projects db) →
  tasks_post no_fault now true newId user pid value db
  = (refuse 404 "Project not found", db).
Proof.
  intros Hall.
  unfold tasks_post, run_route, post_task, bind, db_query, select, ret.
  simpl. unfold projectQuery.
  assert (filter (λ p, project_id p = pid) (projects db) = []) as ->
    by by apply ServerFacts.filter_nil_Forall.
  done.
Qed.

Lemma assignee_columns_frame u (t : gmap string SqlVal) k :
  k ≠ "assignee_name" → k ≠ "assignee_email" → k ≠ "assignee_role" →
  assignee_columns u t !! k = t !! k.
Proof.
  intros H1 H2 H3. unfold assignee_columns.
  by rewrite !lookup_insert_ne by done.
Qed.

Lemma left_join_head {B} (l : list B) : ∃ x rest, left_join l = x :: rest.
Proof. destruct l; simpl; eauto. Qed.

(** The caller who may create tasks has access to the project. *)
Lemma may_create_access user p db :
  Schema.project_ids_unique db → p ∈ projects db →
  may_create user p db = true →
  accessQuery (project_id p) (user_id user) db ≠ [].
Proof.
  intros Huniq Hin Hmay. unfold accessQuery.
  rewrite (ServerFacts.filter_unique_key_only project_id) by done. simpl.
  rewrite app_nil_r. intros Hnil.
  apply ServerFacts.filter_nil_Forall in Hnil.
  apply ServerFacts.Forall_left_join in Hnil as [Hnone Hall].
  unfold may_create in Hmay.
  apply orb_true_iff in Hmay as [Ho|Hm].
  - apply bool_decide_eq_true_1 in Ho.
    destruct (filter _ (project_members db)) as [|pm pms].
    + apply Hnone; [done|]. by left.
    + apply Forall_cons in Hall as [Hpm _]. apply Hpm. by left.
  - apply andb_true_iff in Hm as [Hm _]. apply bool_decide_eq_true_1 in Hm.
    rewrite Forall_forall in Hall.
    apply (Hall {| pm_project_id := project_id p; pm_user_id := user_id user |}).
    + by apply list_elem_of_filter.
    + by right.
Qed.

(** X19.  A task that was created with 201 is in the task list of its
    project, which the creator is allowed to read: the list is answered with
    200 and has a row with the id and the title of the new task. *)
Theorem tasks_post_then_listed now newId user pid value db p :
  Schema.project_ids_unique db → p ∈ projects db → project_id p = pid →
  let '(r, db') := tasks_post no_fault now true newId user pid value db in
  r_code r = 201 →
  ∃ rows, (tasks_of_project no_fault user pid db').1 = ok_with 200 "" (TasksData rows)
    ∧ ∃ row, row ∈ rows ∧ row !! "id" = Some (SqlOf (JStr newId))
             ∧ row !! "title" = Some (sql_param (prop value "title")).
Proof.
  intros Huniq Hin Hid.
  rewrite (tasks_post_cases now newId user pid value db p) by done.
  destruct (may_create user p db) eqn:Hmay; simpl; [|done]. intros _.
  pose proof (may_create_access user p db Huniq Hin Hmay) as Hacc.
  rewrite Hid in Hacc.
  unfold tasks_of_project, run_handler, get_project_tasks, bind, db_query,
    select, ret. simpl.
  change (accessQuery pid (user_id user) (with_tasks db _))
    with (accessQuery pid (user_id user) db).
  rewrite bool_decide_eq_false_2
    by (by rewrite length_zero_iff_nil). simpl.
  eexists. split; [reflexivity|].
  unfold projectTasksQuery. simpl. rewrite filter_app, bind_app.
  rewrite filter_cons_True by done. rewrite filter_nil. simpl.
  match goal with
  | |- context [left_join ?l] => destruct (left_join_head l) as (u & rest & ->)
  end.
  simpl. eexists. split.
  - apply elem_of_app. right. by left.
  - by rewrite !assignee_columns_frame by done.
Qed.

Lemma tasks_post_then_listed_witness :
  let db := Examples.Db.db true "pending" "u2" in
  ∃ rows, (tasks_of_project no_fault Examples.Db.owner "p1"
             (tasks_post no_fault Examples.NOW true "t9" Examples.Db.owner "p1" ∅ db).2).1
          = ok_with 200 "" (TasksData rows).
Proof.
  intros db.
  assert (Schema.project_ids_unique db) as H1
    by (apply (bool_decide_unpack _); vm_compute; exact I).
  assert (Examples.Db.launch true ∈ projects db) as H2 by constructor.
  pose proof (tasks_post_then_listed Examples.NOW "t9" Examples.Db.owner "p1" ∅ db
                (Examples.Db.launch true) H1 H2 eq_refl) as H.
  destruct (tasks_post no_fault Examples.NOW true "t9" Examples.Db.owner "p1" ∅ db)
    as [r db'] eqn:Hrun.
  assert (r_code r = 201) as Hcode
    by (apply (f_equal fst) in Hrun; simpl in Hrun; rewrite <- Hrun;
        vm_compute; reflexivity).
  destruct (H Hcode) as (rows & Hrows & _). exists rows. exact Hrows.
Defined.

(** X20.  Deleting a task: the caller must own the project of the task.
    Any other caller, and any caller of an id that names no task, gets 403
    and nothing is written; the owner gets 200, no task with that id is
    left, and every other task and table is as before. *)
Theorem tasks_delete_outcome user taskId db :
  let owned :=
    Exists (λ t : gmap string SqlVal,
              t !! "id" = Some (SqlOf (JStr taskId))
              ∧ Exists (λ p, t !! "project_id" = Some (SqlOf (JStr (project_id p)))
                             ∧ owner_id p = user_id user) (projects db))
           (tasks db) in
  let '(r, db') := tasks_delete no_fault user taskId db in
  ((¬ owned) → r = refuse 403 "Only project owner can delete tasks" ∧ db' = db)
  ∧ (owned →
     r = answer 200 "Task deleted successfully" tt
     ∧ db' = with_tasks db (tasks db')
     ∧ ∀ t, t ∈ tasks db' ↔ t ∈ tasks db ∧ t !! "id" ≠ Some (SqlOf (JStr taskId))).
Proof.
  intros owned.
  unfold tasks_delete, run_route, delete_task, bind, db_query, select, ret. simpl.
  assert (taskOwnerQuery taskId (user_id user) db = [] ↔ ¬ owned) as Hq.
  { unfold taskOwnerQuery, owned.
    rewrite ServerFacts.bind_nil_Forall, <- Forall_Exists_neg, !Forall_forall.
    split.
    - intros H t Ht [Hid Hp]. apply Exists_exists in Hp as (p & Hp & Hpp).
      assert (t ∈ filter (λ t : gmap string SqlVal,
                            t !! "id" = Some (SqlOf (JStr taskId))) (tasks db)) as Hin
        by by apply list_elem_of_filter.
      specialize (H t Hin). apply ServerFacts.bind_nil_Forall in H.
      rewrite Forall_forall in H.
      by specialize (H p (proj2 (list_elem_of_filter _ _ _) (conj Hpp Hp))).
    - intros H t [Hid Ht]%list_elem_of_filter.
      apply ServerFacts.bind_nil_Forall, Forall_forall.
      intros p [Hpp Hp]%list_elem_of_filter. destruct (H t Ht).
      split; [done|]. apply Exists_exists. by exists p. }
  case_bool_decide as Hlen.
  - apply length_zero_iff_nil in Hlen. split; [done|].
    intros Ho. by apply Hq in Hlen.
  - simpl. split.
    + intros Hno. apply Hq in Hno. by rewrite Hno in Hlen.
    + intros _. split_and!; [done..|].
      intros t. rewrite list_elem_of_filter. tauto.
Qed.

(** *** Creating, updating and deleting projects *)

(** X21.  Creating a project is all or nothing, whatever call fails: a
    success answer means that the project row and the membership of its
    owner are both stored, the row being the one returned; any other answer
    means that the database is as it was. *)
Theorem projects_post_atomic fault valid newId user title settings db :
  let '(r, db') := projects_post fault valid newId user title settings db in
  (r_success r = false → db' = db)
  ∧ (r_success r = true →
     ∃ row, r = answer 201 "Project created successfully" row
       ∧ project_id row = newId ∧ owner_id row = user_id user
       ∧ project_title row = title ∧ project_settings row = Some settings
       ∧ (newId ∉ project_id <$> projects db)
       ∧ projects db' = projects db ++ [row]
       ∧ project_members db'
         = project_members db ++ [{| pm_project_id := newId; pm_user_id := user_id user |}]
       ∧ users db' = users db ∧ invitations db' = invitations db
       ∧ tasks db' = tasks db).
Proof.
  unfold projects_post, run_route, post_project.
  destruct valid; simpl; [|done].
  unfold finally, try_catch, bind, client_begin, client_query, ext_call,
    client_rollback, client_commit, client_release, insertProject, insertMember,
    throw, ret; simpl.
  destruct (fault 0); [done|]. simpl.
  destruct (fault 1); simpl; [by destruct (fault 2)|].
  destruct (fault 2); simpl; [by destruct (fault 3)|].
  case_bool_decide as Hfresh; simpl; [by destruct (fault 3)|].
  destruct (fault 3); simpl; [by destruct (fault 4)|].
  case_bool_decide as Hmem; simpl; [by destruct (fault 4)|].
  destruct (fault 4); simpl; [by destruct (fault 5)|].
  split; [done|]. intros _. eexists. split; [done|]. by split_and!.
Qed.

(** X22.  After a project is created, its owner can read it back, with the
    title and the settings of the request, and a user who is no member of
    it is answered 404. *)
Theorem projects_post_then_get newId user title settings db :
  user ∈ users db →
  let '(r, db') := projects_post no_fault true newId user title settings db in
  r_code r = 201 →
  (∃ row ms, (projects_get no_fault user newId db').1 = ok_with 200 "" (ProjectData row ms)
     ∧ project_id row = newId ∧ project_title row = title
     ∧ owner_id row = user_id user ∧ project_settings row = Some settings)
  ∧ (∀ other, user_id other ≠ user_id user →
       {| pm_project_id := newId; pm_user_id := user_id other |} ∉ project_members db →
       (projects_get no_fault other newId db').1
       = fail_with 404 "Project not found or access denied").
Proof.
  intros Huser.
  unfold projects_post, run_route, post_project. simpl.
  unfold finally, try_catch, bind, client_begin, client_query, ext_call,
    client_rollback, client_commit, client_release, insertProject, insertMember,
    throw, ret; simpl.
  case_bool_decide as Hfresh; simpl; [done|].
  case_bool_decide as Hmem; simpl; [done|]. intros _.
  set (row := {| project_id := newId; project_title := title;
                 owner_id := user_id user; project_settings := Some settings |}).
  assert (filter (λ p, project_id p = newId) (projects db ++ [row]) = [row]) as Hrow.
  { rewrite filter_app, filter_cons_True, filter_nil by done.
    rewrite (proj2 (ServerFacts.filter_nil_Forall _ _)); [done|].
    apply Forall_forall. intros p Hp Heq. apply Hfresh.
    apply list_elem_of_fmap. by exists p. }
  split.
  - unfold projects_get, run_handler, get_project, bind, db_query, select, ret.
    simpl. unfold projectByIdQuery. simpl. rewrite Hrow. simpl.
    destruct (filter (λ u, user_id u = user_id user) (users db)) as [|u us] eqn:Hus.
    { apply ServerFacts.filter_nil_Forall in Hus. rewrite Forall_forall in Hus.
      by destruct (Hus user Huser). }
    simpl. rewrite bool_decide_eq_true_2.
    + simpl. eexists _, _. split; [reflexivity|]. done.
    + match goal with
      | |- Exists _ (left_join ?l) => destruct (left_join_head l) as (x & rest & ->)
      end.
      apply Exists_cons. left. by left.
  - intros other Hother Hnot.
    pose proof (ServerFacts.projects_get_denied other newId
                  {| users := users db; projects := projects db ++ [row];
                     project_members :=
                       project_members db
                       ++ [{| pm_project_id := newId; pm_user_id := user_id user |}];
                     invitations := invitations db; tasks := tasks db |}) as H.
    apply (f_equal fst) in H; [exact H|]. simpl. apply Forall_app. split.
    + apply Forall_forall. intros p Hp Heq. destruct Hfresh.
      apply list_elem_of_fmap. by exists p.
    + apply Forall_singleton. intros _. simpl. split; [done|].
      rewrite elem_of_app, list_elem_of_singleton. intros [?|[= ?]]; done.
Qed.

Lemma projects_post_then_get_witness :
  let db := Examples.Db.db true "pending" "u2" in
  (projects_get no_fault Examples.Db.outsider "p7"
     (projects_post no_fault true "p7" Examples.Db.owner "Next"
        {| allowMemberTaskEdit := true; allowMemberTaskCreate := false;
           allowMemberInvite := false |} db).2).1
  = fail_with 404 "Project not found or access denied".
Proof.
  intros db.
  assert (Examples.Db.owner ∈ users db) as H1 by constructor.
  pose proof (projects_post_then_get "p7" Examples.Db.owner "Next"
                {| allowMemberTaskEdit := true; allowMemberTaskCreate := false;
                   allowMemberInvite := false |} db H1) as H.
  destruct (projects_post no_fault true "p7" Examples.Db.owner "Next" _ db)
    as [r db'] eqn:Hrun.
  assert (r_code r = 201) as Hcode
    by (apply (f_equal fst) in Hrun; simpl in Hrun; rewrite <- Hrun;
        vm_compute; reflexivity).
  destruct (H Hcode) as [_ Hother]. simpl. apply Hother.
  - intros Heq. discriminate Heq.
  - apply (bool_decide_unpack _). vm_compute. exact I.
Defined.

Lemma ownerCheckQuery_nil pid uid db :
  ownerCheckQuery pid uid db = []
  ↔ ¬ Exists (λ p, project_id p = pid ∧ owner_id p = uid) (projects db).
Proof.
  unfold ownerCheckQuery.
  by rewrite ServerFacts.filter_nil_Forall, Forall_Exists_neg.
Qed.

(** The rows of the update, by position. *)
Lemma updateProjectQuery_rows pid patch db rows db' :
  updateProjectQuery pid patch db = Some (rows, db') →
  users db' = users db ∧ project_members db' = project_members db
  ∧ invitations db' = invitations db ∧ tasks db' = tasks db
  ∧ project_id <$> projects db' = project_id <$> projects db
  ∧ ∀ k p, projects db !! k = Some p →
      ∃ p', projects db' !! k = Some p'
        ∧ project_id p' = project_id p ∧ owner_id p' = owner_id p
        ∧ (project_id p ≠ pid → p' = p)
        ∧ (project_id p = pid →
           project_title p' = default (project_title p) (pp_title patch)
           ∧ project_settings p'
             = match pp_settings patch with
               | Some sp => Some (stored_settings sp)
               | None => project_settings p
               end).
Proof.
  unfold updateProjectQuery. intros [= <- <-]. simpl. split_and!; try done.
  - rewrite <- list_fmap_compose. apply list_fmap_ext. intros k p _. simpl.
    by case_bool_decide.
  - intros k p Hk. rewrite list_lookup_fmap, Hk. simpl.
    eexists. split; [done|]. by case_bool_decide.
Qed.

(** X23.  Updating a project, with a valid body and no failing call: only
    the owner gets through, and an id that names no project is refused in
    the same way (403); a body with none of the three fields is refused with
    400; otherwise the answer is 200, the project keeps its id and owner,
    takes the title of the body when it has one, and takes the settings
    object of the body as a whole when it has one; every other project and
    table is as before. *)
Theorem projects_put_outcome user pid patch db :
  let is_owner :=
    Exists (λ p, project_id p = pid ∧ owner_id p = user_id user) (projects db) in
  let empty :=
    pp_title patch = None ∧ pp_description patch = None ∧ pp_settings patch = None in
  let '(r, db') := projects_put no_fault true user pid patch db in
  ((¬ is_owner) →
   r = refuse 403 "Only project owner can update project settings" ∧ db' = db)
  ∧ (is_owner → empty → r = refuse 400 "No valid fields to update" ∧ db' = db)
  ∧ (is_owner → (¬ empty) →
     r_code r = 200
     ∧ users db' = users db ∧ project_members db' = project_members db
     ∧ invitations db' = invitations db ∧ tasks db' = tasks db
     ∧ ∀ k p, projects db !! k = Some p →
         ∃ p', projects db' !! k = Some p'
           ∧ project_id p' = project_id p ∧ owner_id p' = owner_id p
           ∧ (project_id p ≠ pid → p' = p)
           ∧ (project_id p = pid →
              project_title p' = default (project_title p) (pp_title patch)
              ∧ project_settings p'
                = match pp_settings patch with
                  | Some sp => Some (stored_settings sp)
                  | None => project_settings p
                  end)).
Proof.
  intros is_owner empty.
  unfold projects_put, run_route, put_project, bind, db_query, select, ret. simpl.
  pose proof (ownerCheckQuery_nil pid (user_id user) db) as Hq.
  case_bool_decide as Hlen.
  - apply length_zero_iff_nil in Hlen. apply Hq in Hlen.
    split; [done|]. split; intros Ho; by destruct Hlen.
  - simpl. rewrite length_zero_iff_nil in Hlen.
    case_bool_decide as Hempty; simpl.
    + split; [intros Hno; by apply Hq in Hno|].
      split; [done|]. intros _ Hne. by destruct Hne.
    + pose proof (updateProjectQuery_rows pid patch db _ _ eq_refl)
        as (_ & _ & _ & _ & _ & Hrows).
      split; [intros Hno; by apply Hq in Hno|].
      split; [by intros _ ?|]. intros _ _. by split_and!.
Qed.

(** X24.  The settings object of an update replaces the stored one: a flag
    that the body leaves out is switched off.  After the owner sends
    settings without [allowMemberTaskCreate], a member who is not the owner
    cannot create tasks in the project, whatever the setting was before. *)
Theorem projects_put_drops_omitted_flag now owner member pid patch sp newId value db p :
  Schema.project_ids_unique db → p ∈ projects db → project_id p = pid →
  owner_id p = user_id owner → user_id member ≠ user_id owner →
  pp_settings patch = Some sp → sp_allowMemberTaskCreate sp = None →
  let db' := (projects_put no_fault true owner pid patch db).2 in
  (tasks_post no_fault now true newId member pid value db').1
  = refuse 403 "You do not have permission to create tasks in this project".
Proof.
  intros Huniq Hin Hid Ho Hm Hset Hflag.
  unfold projects_put, run_route, put_project, bind, db_query, select, ret. simpl.
  rewrite bool_decide_eq_false_2.
  2:{ rewrite length_zero_iff_nil, ownerCheckQuery_nil. intros Hno. apply Hno.
      apply Exists_exists. by exists p. }
  simpl. rewrite bool_decide_eq_false_2 by (rewrite Hset; by intros (_ & _ & ?)).
  simpl.
  pose proof (updateProjectQuery_rows pid patch db _ _ eq_refl)
    as (_ & Hmem & _ & _ & Hids & Hrows).
  match type of Hmem with project_members ?d = _ => set (db' := d) in * end.
  apply list_elem_of_lookup in Hin as [k Hk].
  destruct (Hrows k p Hk) as (p' & Hk' & Hid' & Ho' & _ & Hnew).
  destruct (Hnew Hid) as [_ Hs]. rewrite Hset in Hs.
  rewrite (tasks_post_cases now newId member pid value db' p').
  - unfold may_create. rewrite Ho', Ho.
    rewrite bool_decide_eq_false_2 by (intros ?; by apply Hm).
    rewrite Hs. simpl. unfold stored_settings. simpl. rewrite Hflag. simpl.
    by rewrite andb_false_r.
  - unfold Schema.project_ids_unique. by rewrite Hids.
  - by apply list_elem_of_lookup_2 in Hk'.
  - congruence.
Qed.

Lemma projects_put_drops_omitted_flag_witness :
  let db := Examples.Db.db true "pending" "u2" in
  let patch := {| pp_title := None; pp_description := None;
                  pp_settings := Some {| sp_allowMemberTaskEdit := None;
                                         sp_allowMemberTaskCreate := None;
                                         sp_allowMemberInvite := Some true |} |} in
  (tasks_post no_fault Examples.NOW true "t9" Examples.Db.member "p1" ∅
     (projects_put no_fault true Examples.Db.owner "p1" patch db).2).1
  = refuse 403 "You do not have permission to create tasks in this project".
Proof.
  intros db patch.
  assert (Schema.project_ids_unique db) as H1
    by (apply (bool_decide_unpack _); vm_compute; exact I).
  assert (Examples.Db.launch true ∈ projects db) as H2 by constructor.
  apply (projects_put_drops_omitted_flag Examples.NOW Examples.Db.owner
           Examples.Db.member "p1" patch
           {| sp_allowMemberTaskEdit := None; sp_allowMemberTaskCreate := None;
              sp_allowMemberInvite := Some true |} "t9" ∅ db
           (Examples.Db.launch true) H1 H2).
  - reflexivity.
  - reflexivity.
  - intros Heq. discriminate Heq.
  - reflexivity.
  - reflexivity.
Defined.

(** X25.  Deleting a project: only the owner gets through (an unknown id is
    refused alike, with 403, and nothing is written).  After the owner's
    call no project, membership, invitation or task of that project is
    left, the rows of the other projects are all kept, and the project can
    be read by nobody: the project route answers 404 and the task list 403
    to every caller, the former owner included. *)
Theorem projects_delete_outcome milestones user pid db :
  let is_owner :=
    Exists (λ p, project_id p = pid ∧ owner_id p = user_id user) (projects db) in
  let '(r, db') := projects_delete no_fault milestones user pid db in
  ((¬ is_owner) →
   r = refuse 403 "Only project owner can delete project" ∧ db' = db)
  ∧ (is_owner →
     r = answer 200 "Project deleted successfully" tt
     ∧ users db' = users db
     ∧ (∀ p, p ∈ projects db' ↔ p ∈ projects db ∧ project_id p ≠ pid)
     ∧ (∀ pm, pm ∈ project_members db'
              ↔ pm ∈ project_members db ∧ pm_project_id pm ≠ pid)
     ∧ (∀ i, i ∈ invitations db' ↔ i ∈ invitations db ∧ inv_project_id i ≠ pid)
     ∧ Forall (λ t : gmap string SqlVal,
                 t !! "project_id" ≠ Some (SqlOf (JStr pid))) (tasks db')
     ∧ (∀ who, (projects_get no_fault who pid db').1
               = fail_with 404 "Project not found or access denied")
     ∧ (∀ who, (tasks_of_project no_fault who pid db').1
               = fail_with 403 "Access denied to project")).
Proof.
  intros is_owner.
  unfold projects_delete, run_route, delete_project, bind, db_query, select, ret.
  simpl.
  pose proof (ownerCheckQuery_nil pid (user_id user) db) as Hq.
  case_bool_decide as Hlen.
  - apply length_zero_iff_nil in Hlen. apply Hq in Hlen.
    split; [done|]. intros Ho; by destruct Hlen.
  - simpl. rewrite length_zero_iff_nil in Hlen.
    split; [intros Hno; by apply Hq in Hno|]. intros _.
    set (db' := {| users := users db;
                   projects := filter (λ p, project_id p ≠ pid) (projects db) |}).
    assert (Forall (λ p, project_id p ≠ pid) (projects db')) as Hgone.
    { apply Forall_forall. by intros p [? _]%list_elem_of_filter. }
    split_and!; try done.
    + intros p. simpl. rewrite list_elem_of_filter. tauto.
    + intros pm. simpl. rewrite list_elem_of_filter. tauto.
    + intros i. simpl. rewrite list_elem_of_filter. tauto.
    + simpl. apply Forall_fmap, Forall_forall.
      intros t [Ht _]%list_elem_of_filter. simpl.
      case_bool_decide; [|done].
      by rewrite lookup_insert_ne.
    + intros who. rewrite ServerFacts.projects_get_denied; [done|].
      eapply Forall_impl; [exact Hgone|]. by intros p ? ?.
    + intros who. rewrite ServerFacts.tasks_of_project_denied; [done|].
      eapply Forall_impl; [exact Hgone|]. by intros p ? ?.
Qed.

End ServerMoreFacts.

(** ** Properties of the authentication middleware *)

Module AuthFacts.
Import Js Server ServerMore Auth.

(** The second piece of a header is the first piece of what follows the
    first space. *)
Lemma split_space_second (scheme rest : string) :
  Forall (λ c, c ≠ " "%char) (String.list_ascii_of_string scheme) →
  split_space (scheme +:+ " " +:+ rest) !! 1 = head (split_space rest).
Proof.
  induction scheme as [|c scheme IH]; intros Hno.
  - change ("" +:+ " " +:+ rest) with (String " " rest). simpl.
    by rewrite head_lookup.
  - apply Forall_cons in Hno as [Hc Hno]. specialize (IH Hno).
    change (String c scheme +:+ " " +:+ rest)
      with (String c (scheme +:+ " " +:+ rest)).
    simpl. rewrite bool_decide_eq_false_2 by done.
    by destruct (split_space (scheme +:+ " " +:+ rest)) as [|w [|w' ws]].
Qed.

(** X26.  The middleware lets a request through only with a token that the
    library verified, as the active user whose id the token carries; and
    with unique user ids and no failing call it lets every such request
    through, as exactly that user. *)
Theorem authenticateToken_passes verify header db user :
  NoDup (user_id <$> users db) →
  let passes :=
    ∃ token, header ≫= (λ h, split_space h !! 1) = Some token ∧ token ≠ ""
             ∧ verify token = Verified (Some (user_id user))
             ∧ user ∈ users db ∧ is_active user = true in
  (∀ fault, authenticateToken verify fault header db = Next user → passes)
  ∧ (passes → authenticateToken verify no_fault header db = Next user).
Proof.
  intros Huniq passes. split.
  - intros fault. unfold authenticateToken.
    destruct (header ≫= _) as [token|] eqn:Htok; [|done].
    case_bool_decide as Hne; [done|].
    destruct (verify token) as [uid| | |] eqn:Hv; try done.
    unfold db_query, select. simpl. destruct (fault 0); [done|].
    destruct (userQuery uid db) as [|u us] eqn:Hq; [done|].
    intros [= ->].
    assert (user ∈ userQuery uid db) as Hin by (rewrite Hq; by left).
    apply list_elem_of_filter in Hin as [[<- Hact] Hin].
    by exists token.
  - intros (token & Htok & Hne & Hv & Hin & Hact).
    unfold authenticateToken. rewrite Htok, bool_decide_eq_false_2, Hv by done.
    unfold db_query, select, userQuery. simpl.
    rewrite (list_filter_iff _ (λ u, user_id u = user_id user ∧ is_active u = true)).
    2:{ intros u. split; [intros [[= ?] ?]|intros [-> ?]]; done. }
    rewrite (ServerFacts.filter_unique_key user_id) by done.
    by rewrite decide_True.
Qed.

(** X27.  The scheme word of the header is not looked at: whatever word
    without a space stands before the first space, the outcome is that of
    the same header with Bearer. *)
Theorem authenticateToken_ignores_scheme verify fault scheme rest db :
  Forall (λ c, c ≠ " "%char) (String.list_ascii_of_string scheme) →
  authenticateToken verify fault (Some (scheme +:+ " " +:+ rest)) db
  = authenticateToken verify fault (Some ("Bearer " +:+ rest)) db.
Proof.
  intros Hno. unfold authenticateToken.
  assert (Some (scheme +:+ " " +:+ rest) ≫= (λ h, split_space h !! 1)
          = head (split_space rest)) as ->
    by by apply split_space_second.
  assert (Some ("Bearer " +:+ rest) ≫= (λ h, split_space h !! 1)
          = head (split_space rest)) as ->; [|done].
  apply (split_space_second "Bearer" rest). repeat constructor; done.
Qed.


Lemma authenticateToken_passes_witness :
  let verify := λ t : string,
    if bool_decide (t = "tok") then Verified (Some "u1") else JsonWebTokenError in
  let db := Examples.Db.db true "pending" "u2" in
  authenticateToken verify no_fault (Some "Bearer tok") db = Next Examples.Db.owner.
Proof.
  intros verify db.
  assert (NoDup (user_id <$> users db)) as Huniq
    by (apply (bool_decide_unpack _); vm_compute; exact I).
  destruct (authenticateToken_passes verify (Some "Bearer tok") db
              Examples.Db.owner Huniq) as [_ H].
  apply H. exists "tok". split_and!.
  - reflexivity.
  - intros Heq. discriminate Heq.
  - reflexivity.
  - constructor.
  - reflexivity.
Defined.

Lemma authenticateToken_ignores_scheme_witness :
  let verify := λ t : string,
    if bool_decide (t = "tok") then Verified (Some "u1") else JsonWebTokenError in
  let db := Examples.Db.db true "pending" "u2" in
  authenticateToken verify no_fault (Some "Basic tok") db
  = authenticateToken verify no_fault (Some "Bearer tok") db.
Proof.
  intros verify db.
  apply (authenticateToken_ignores_scheme verify no_fault "Basic" "tok" db).
  repeat constructor; intros Heq; discriminate Heq.
Defined.

End AuthFacts.
